(** * fandom-scraper: a shallow embedding of [main.py]

    The crawler of [main.py] is embedded component by component:
    the module-level configuration, [URLManager] (the frontier),
    [WikiScraper] (robots policy, scope filter, file names, extraction)
    and the worker pool of [main].

    Python values are modelled as follows.
    - [str] is a list of Unicode code points ([N]); literals are written
      [py "..."] (all literals of [main.py] are ASCII).
    - [set] is a [gset], [deque] and [list] are lists.
    - Exceptions are an explicit error type; [None] is [option]'s [None].
    - Library code ([urllib.parse], [bs4], [aiohttp], the file system) is an
      interface whose answers are inputs of the model. *)

From Stdlib Require Import ZArith NArith Ascii String.
From stdpp Require Import base list gmap sets.

Local Open Scope N_scope.

(** ** Python [str] *)

Abbreviation str := (list N).

Definition py (s : string) : str :=
  (λ a, N_of_ascii a) <$> list_ascii_of_string s.
Arguments py : simpl never.

(** Characters for which [str.isspace] holds; the same class is what [\s]
    matches in a [str] pattern and what [str.strip()] removes. *)
Definition isspace (c : N) : bool :=
  ((9 <=? c) && (c <=? 13)) || ((28 <=? c) && (c <=? 32))
  || (c =? 133) || (c =? 160) || (c =? 5760)
  || ((8192 <=? c) && (c <=? 8202))
  || (c =? 8232) || (c =? 8233) || (c =? 8239) || (c =? 8287) || (c =? 12288).

(** [s.startswith(p)] *)
Fixpoint startswith (p s : str) : bool :=
  match p, s with
  | [], _ => true
  | _ :: _, [] => false
  | a :: p', b :: s' => (a =? b) && startswith p' s'
  end.

(** [needle in hay] *)
Fixpoint contains (needle hay : str) : bool :=
  startswith needle hay ||
  match hay with
  | [] => false
  | _ :: hay' => contains needle hay'
  end.

(** [s.split(sep)] for a non-empty [sep]: cut at each occurrence of [sep],
    scanning from the left, occurrences not overlapping.  [skip] counts the
    characters of a found separator still to pass over and [cur] holds the
    current piece, last character first. *)
Fixpoint split_from (sep : str) (skip : nat) (cur s : str) : list str :=
  match s with
  | [] => [reverse cur]
  | c :: s' =>
      match skip with
      | S k => split_from sep k cur s'
      | O =>
          if startswith sep s
          then reverse cur :: split_from sep (length sep - 1) [] s'
          else split_from sep 0 (c :: cur) s'
      end
  end.

Definition split (sep s : str) : list str := split_from sep 0 [] s.

(** [s.replace(old, new, count)] for a non-empty [old]; [count = None] is
    the call without a count. *)
Fixpoint replace_from (old new : str) (count : option nat) (skip : nat)
    (s : str) : str :=
  match s with
  | [] => []
  | c :: s' =>
      match skip with
      | S k => replace_from old new count k s'
      | O =>
          match count with
          | Some O => c :: replace_from old new count 0 s'
          | _ =>
              if startswith old s
              then new ++ replace_from old new (pred <$> count) (length old - 1) s'
              else c :: replace_from old new count 0 s'
          end
      end
  end.

Definition replace (old new : str) (count : option nat) (s : str) : str :=
  replace_from old new count 0 s.

(** [sep.join(pieces)] *)
Fixpoint join (sep : str) (pieces : list str) : str :=
  match pieces with
  | [] => []
  | [x] => x
  | x :: rest => x ++ sep ++ join sep rest
  end.

(** [s.strip()] *)
Fixpoint lstrip (s : str) : str :=
  match s with
  | [] => []
  | c :: s' => if isspace c then lstrip s' else s
  end.
Definition strip (s : str) : str := reverse (lstrip (reverse (lstrip s))).

(** [s.splitlines()]: lines end at LF, CR, CRLF, VT, FF, FS, GS, RS, NEL,
    LS and PS; the line ends are dropped and a final line end opens no
    empty line. *)
Definition is_linebreak (c : N) : bool :=
  ((10 <=? c) && (c <=? 13)) || ((28 <=? c) && (c <=? 30))
  || (c =? 133) || (c =? 8232) || (c =? 8233).

Fixpoint splitlines_from (cur s : str) : list str :=
  match s with
  | [] => match cur with [] => [] | _ => [reverse cur] end
  | c :: s' =>
      if is_linebreak c then
        match s' with
        | d :: s'' =>
            if (c =? 13) && (d =? 10)
            then reverse cur :: splitlines_from [] s''
            else reverse cur :: splitlines_from [] s'
        | [] => [reverse cur]
        end
      else splitlines_from (c :: cur) s'
  end.

Definition splitlines (s : str) : list str := splitlines_from [] s.

(** The truth value of a [str]: false for the empty one only. *)
Definition nonempty (s : str) : bool :=
  match s with [] => false | _ => true end.

(** ** Exceptions *)

Inductive exn :=
| IndexError
| TypeError
| ValueError
| OSError            (* [IOError] is an alias of [OSError] *)
| OtherError.

Inductive result (A : Type) :=
| Ok (a : A)
| Raise (e : exn).
Arguments Ok {A} a.
Arguments Raise {A} e.

(** Sequencing: the first statement that raises ends the block. *)
#[global] Instance result_bind : MBind result := λ A B k r,
  match r with
  | Ok a => k a
  | Raise e => Raise e
  end.

(** [l[i]] for a non-negative index. *)
Definition getitem {A} (l : list A) (i : nat) : result A :=
  match l !! i with
  | Some a => Ok a
  | None => Raise IndexError
  end.

(** ** Module level: the configuration (lines 13 to 21) *)

Module Config.

Record config := mkConfig {
  BASE_URL : str;
  START_PATH : str;
  DUMP_DIR : str;
  MAX_CONCURRENT_WORKERS : Z;
  REQUEST_LIMIT : Z;
  REQUEST_TIMEOUT : Z;
  USER_AGENT : str;
}.

Definition user_input : str := py "Starting URL:".

(** The module-level assignments in source order, for a given value of
    [user_input] and a given answer of [os.cpu_count()] ([None] when the
    count cannot be determined).  The first statement that raises ends
    the import. *)
Definition load (user_input : str) (cpu_count : option Z) : result config :=
  base_head ← getitem (split (py "fandom.com") user_input) 0;
  let base_url := base_head ++ py "fandom.com" in
  start_path ← getitem (split (py "fandom.com") user_input) 1;
  let dump_dir := py "./dump" in
  workers ← match cpu_count with
            | Some n => Ok (n `div` 3)%Z
            | None => Raise TypeError
            end;
  Ok {| BASE_URL := base_url;
        START_PATH := start_path;
        DUMP_DIR := dump_dir;
        MAX_CONCURRENT_WORKERS := workers;
        REQUEST_LIMIT := 5;
        REQUEST_TIMEOUT := 30;
        USER_AGENT := py "FandomWikiArchiver/1.0 (Purpose: personal offline use)" |}.

(** The import of [main.py] as written. *)
Definition import_main (cpu_count : option Z) : result config :=
  load user_input cpu_count.

End Config.

(** ** The frontier: [class URLManager] *)

Module Frontier.

Record URLManager := mkURLManager {
  urls_to_visit : list str;   (* deque, left end first *)
  visited_urls : gset str;
}.

(** [__init__] *)
Definition init (start_url : str) : URLManager :=
  {| urls_to_visit := [start_url]; visited_urls := {[ start_url ]} |}.

(** [get_next_url]: [popleft] under the lock, [None] on an empty deque. *)
Definition get_next_url (m : URLManager) : option str * URLManager :=
  match urls_to_visit m with
  | [] => (None, m)
  | u :: rest =>
      (Some u, {| urls_to_visit := rest; visited_urls := visited_urls m |})
  end.

(** One round of the [for url in urls] loop of [add_new_urls]. *)
Definition add_one (acc : nat * URLManager) (url : str) : nat * URLManager :=
  let '(new_urls_added, m) := acc in
  if decide (url ∈ visited_urls m) then acc
  else (S new_urls_added,
        {| urls_to_visit := urls_to_visit m ++ [url];
           visited_urls := {[ url ]} ∪ visited_urls m |}).

(** [add_new_urls]: the whole loop runs under the lock and contains no
    [await], so it is one atomic transition of the frontier. *)
Definition add_new_urls (urls : list str) (m : URLManager) : nat * URLManager :=
  fold_left add_one urls (0%nat, m).

Definition get_queue_size (m : URLManager) : nat := length (urls_to_visit m).
Definition get_visited_count (m : URLManager) : nat := size (visited_urls m).

(** Calls made by concurrently running workers.  The lock serialises
    them, so a concurrent execution is a sequence of calls in the order in
    which the lock was granted. *)
Inductive call :=
| GetNextUrl
| AddNewUrls (urls : list str).

(** A frontier together with the list of URLs handed out so far by
    [get_next_url], oldest first. *)
Record trace_state := mkTrace {
  manager : URLManager;
  popped : list str;
}.

Definition do_call (t : trace_state) (c : call) : trace_state :=
  match c with
  | GetNextUrl =>
      match get_next_url (manager t) with
      | (Some u, m') => {| manager := m'; popped := popped t ++ [u] |}
      | (None, m') => {| manager := m'; popped := popped t |}
      end
  | AddNewUrls urls =>
      {| manager := (add_new_urls urls (manager t)).2; popped := popped t |}
  end.

Definition run (start_url : str) (calls : list call) : trace_state :=
  fold_left do_call calls {| manager := init start_url; popped := [] |}.

(** Every URL ever placed in [urls_to_visit], in order of placement: the
    ones already handed out followed by the ones still pending. *)
Definition history (t : trace_state) : list str :=
  popped t ++ urls_to_visit (manager t).

(** The invariant of the frontier. *)
Record frontier_inv (t : trace_state) : Prop := {
  inv_nodup : NoDup (history t);
  inv_seen : ∀ u, u ∈ history t → u ∈ visited_urls (manager t);
}.

Lemma add_one_snd n m url :
  (add_one (n, m) url).2 =
    if decide (url ∈ visited_urls m) then m
    else {| urls_to_visit := urls_to_visit m ++ [url];
            visited_urls := {[ url ]} ∪ visited_urls m |}.
Proof. unfold add_one. by case_decide. Qed.

Lemma add_one_inv ps n m url :
  frontier_inv {| manager := m; popped := ps |} →
  frontier_inv {| manager := (add_one (n, m) url).2; popped := ps |}.
Proof.
    intros [Hnd Hseen]. rewrite add_one_snd. case_decide as Hin; [done|].
    unfold history in *; simpl in *. split; unfold history; simpl.
    - rewrite app_assoc. apply NoDup_app. split_and!; [done| |apply NoDup_singleton].
      intros u Hu ->%list_elem_of_singleton. by apply Hin, Hseen.
    - intros u. rewrite app_assoc, elem_of_app, list_elem_of_singleton.
      intros [Hu| ->]; [|set_solver]. apply elem_of_union_r. by apply Hseen.
Qed.

Lemma add_new_urls_inv ps urls m :
  frontier_inv {| manager := m; popped := ps |} →
  frontier_inv {| manager := (add_new_urls urls m).2; popped := ps |}.
Proof.
    unfold add_new_urls. generalize 0%nat as n.
    induction urls as [|url urls IH] in m |- *; intros n Hinv; [done|].
    cbn [fold_left]. destruct (add_one (n, m) url) as [n' m'] eqn:E.
    apply IH. replace m' with (add_one (n, m) url).2 by by rewrite E.
    by apply add_one_inv.
Qed.

Lemma do_call_inv t c : frontier_inv t → frontier_inv (do_call t c).
Proof.
    destruct t as [m ps], c as [|urls]; simpl; [|apply add_new_urls_inv].
    intros [Hnd Hseen]. unfold get_next_url, history in *. simpl in *.
    destruct (urls_to_visit m) as [|u rest] eqn:E; simpl.
    - split; unfold history; simpl; by rewrite E.
    - split; unfold history; simpl; by rewrite <-app_assoc.
Qed.

Lemma init_inv start_url :
  frontier_inv {| manager := init start_url; popped := [] |}.
Proof.
    split; unfold history; simpl.
    - apply NoDup_singleton.
    - intros u ->%list_elem_of_singleton. set_solver.
Qed.

Lemma run_inv start_url calls : frontier_inv (run start_url calls).
Proof.
    unfold run. generalize (init_inv start_url).
    generalize {| manager := init start_url; popped := [] |}.
    induction calls as [|c calls IH]; intros t Ht; [done|].
    simpl. by apply IH, do_call_inv.
Qed.

(** [visited_urls] only grows, and [history] is an append-only log. *)
Lemma add_new_urls_mono urls m :
  visited_urls m ⊆ visited_urls (add_new_urls urls m).2
  ∧ urls_to_visit m `prefix_of` urls_to_visit (add_new_urls urls m).2.
Proof.
    unfold add_new_urls. generalize 0%nat as n.
    induction urls as [|url urls IH] in m |- *; intros n; [done|].
    cbn [fold_left]. destruct (add_one (n, m) url) as [n' m'] eqn:E.
    pose proof (IH m' n') as [IH1 IH2].
    assert (m' = (add_one (n, m) url).2) as Hm' by by rewrite E.
    rewrite add_one_snd in Hm'. case_decide; subst m'; [done|].
    simpl in *. split.
    - etrans; [apply union_subseteq_r | exact IH1].
    - etrans; [|exact IH2]. by apply prefix_app_r.
Qed.

Lemma do_call_mono t c :
  visited_urls (manager t) ⊆ visited_urls (manager (do_call t c))
  ∧ history t `prefix_of` history (do_call t c).
Proof.
    destruct t as [m ps], c as [|urls]; unfold history; simpl.
    - unfold get_next_url. destruct (urls_to_visit m) as [|u rest] eqn:E; simpl.
      + by rewrite E.
      + split; [done|]. by rewrite <-app_assoc.
    - destruct (add_new_urls_mono urls m) as [H1 H2]. split; [done|].
      by apply prefix_app.
Qed.

Lemma fold_do_call_mono calls t :
  visited_urls (manager t) ⊆ visited_urls (manager (fold_left do_call calls t))
  ∧ history t `prefix_of` history (fold_left do_call calls t).
Proof.
    induction calls as [|c calls IH] in t |- *; [done|]. simpl.
    destruct (do_call_mono t c) as [H1 H2], (IH (do_call t c)) as [H3 H4].
    split; by etrans.
Qed.

End Frontier.

(** ** The crawl policy: [urllib.robotparser.RobotFileParser] *)

Module Robots.

(** The rule matching of the standard library (the [Entry] lists built
    by [parse] and searched by [can_fetch]) is an interface: [rules] is
    the pair [entries], [default_entry]; [no_rules] is its value in a new
    parser; [parse_lines] is the loop of [parse]; [search] is the part of
    [can_fetch] that follows its three guards. *)
Class RuleEngine := {
  rules : Type;
  no_rules : rules;
  parse_lines : list str → rules → rules;
  search : rules → str → str → bool;
}.

Section Parser.
Context {engine : RuleEngine}.

Record RobotFileParser := mkParser {
  ruleset : rules;
  disallow_all : bool;
  allow_all : bool;
  last_checked : Z;        (* [0] until [modified()] is called *)
}.

(** [RobotFileParser()] *)
Definition new_parser : RobotFileParser :=
  {| ruleset := no_rules; disallow_all := false; allow_all := false;
     last_checked := 0 |}.

(** [parse(lines)]: calls [modified()], which stores the current time
    [now], then reads the lines. *)
Definition parse (now : Z) (lines : list str) (rp : RobotFileParser)
    : RobotFileParser :=
  {| ruleset := parse_lines lines (ruleset rp);
     disallow_all := disallow_all rp;
     allow_all := allow_all rp;
     last_checked := now |}.

(** [can_fetch(useragent, url)] *)
Definition can_fetch (rp : RobotFileParser) (useragent url : str) : bool :=
  if disallow_all rp then false
  else if allow_all rp then true
  else if (last_checked rp =? 0)%Z then false
  else search (ruleset rp) useragent url.

(** What [session.get(robots_url)] and [response.text()] give inside
    the [try] of [setup_robots_parser]. *)
Inductive robots_reply :=
| GetRaised                                (* the request raised *)
| Replied (status : Z) (text : result str). (* [text]: [await response.text()] *)

(** [WikiScraper.setup_robots_parser] from its [try] on (lines 64 to 75),
    as a function of the reply: the parser is fed only in the
    [status == 200] branch; the [else] branch and the [except] handler
    print a warning and leave it as it is.  The [urljoin] of line 62 stands
    before the [try]: what it raises ends the caller, see [Crawl.main]. *)
Definition setup_robots_parser (now : Z) (reply : robots_reply)
    (rp : RobotFileParser) : RobotFileParser :=
  match reply with
  | GetRaised => rp
  | Replied status text =>
      if (status =? 200)%Z then
        match text with
        | Ok body => parse now (splitlines body) rp
        | Raise _ => rp
        end
      else rp
  end.

(** The replies the specification calls a failed initialisation. *)
Definition init_failed (reply : robots_reply) : Prop :=
  match reply with
  | GetRaised => True
  | Replied status text =>
      status ≠ 200%Z ∨ ∃ e, text = Raise e
  end.

Lemma setup_failed_unchanged now reply rp :
  init_failed reply → setup_robots_parser now reply rp = rp.
Proof.
    destruct reply as [|status text]; simpl; [done|].
    intros [Hne|[e ->]].
    - by apply Z.eqb_neq in Hne as ->.
    - by destruct (status =? 200)%Z.
Qed.

Lemma new_parser_denies useragent url :
  can_fetch new_parser useragent url = false.
Proof. reflexivity. Qed.

End Parser.

End Robots.

(** ** URLs: [urllib.parse] *)

Module Url.

(** [urllib.parse.ParseResult] *)
Record ParseResult := mkParse {
  scheme : str;
  netloc : str;
  path : str;
  params : str;
  query : str;
  fragment : str;
}.

(** [parsed._replace(fragment="")] *)
Definition replace_fragment (f : str) (p : ParseResult) : ParseResult :=
  {| scheme := scheme p; netloc := netloc p; path := path p;
     params := params p; query := query p; fragment := f |}.

(** The three library functions [main.py] calls.  The scraper is embedded
    over this interface, so what is proved of it holds for whatever the
    library answers.  [urlparse] and [urljoin] raise [ValueError] on some
    arguments: [urlparse_raises] and [urljoin_raises] say on which, and the
    functions give the value of a call that returns.  [cpython] below is the
    library as CPython 3.11 has it. *)
Class UrlLib := {
  urlparse : str → ParseResult;
  geturl : ParseResult → str;
  urljoin : str → str → str;
  urlparse_raises : str → bool;
  urljoin_raises : str → str → bool;
}.

(** *** The library as CPython has it *)

(** [s.partition(c)] for a one-character separator: the part before the
    first [c], and the part after it when [c] occurs. *)
Fixpoint partition (c : N) (s : str) : str * option str :=
  match s with
  | [] => ([], None)
  | d :: s' =>
      if d =? c then ([], Some s')
      else let '(a, b) := partition c s' in (d :: a, b)
  end.

(** The longest prefix without a character of [stop], and the rest. *)
Fixpoint span_until (stop : N → bool) (s : str) : str * str :=
  match s with
  | [] => ([], [])
  | d :: s' =>
      if stop d then ([], s)
      else let '(a, b) := span_until stop s' in (d :: a, b)
  end.

(** [url.lstrip(_WHATWG_C0_CONTROL_OR_SPACE)] *)
Fixpoint lstrip_c0 (s : str) : str :=
  match s with
  | [] => []
  | c :: s' => if c <=? 32 then lstrip_c0 s' else s
  end.

Definition is_alpha (c : N) : bool :=
  ((65 <=? c) && (c <=? 90)) || ((97 <=? c) && (c <=? 122)).
Definition is_scheme_char (c : N) : bool :=
  is_alpha c || ((48 <=? c) && (c <=? 57))
  || (c =? 43) || (c =? 45) || (c =? 46).
Definition lower (c : N) : N :=
  if (65 <=? c) && (c <=? 90) then c + 32 else c.

Definition uses_relative : list str :=
  py <$> [""; "ftp"; "http"; "gopher"; "nntp"; "imap"; "wais"; "file";
          "https"; "shttp"; "mms"; "prospero"; "rtsp"; "rtspu"; "sftp";
          "svn"; "svn+ssh"; "ws"; "wss"]%string.
Definition uses_netloc : list str :=
  py <$> [""; "ftp"; "http"; "gopher"; "nntp"; "telnet"; "imap"; "wais";
          "file"; "mms"; "https"; "shttp"; "snews"; "prospero"; "rtsp";
          "rtspu"; "rsync"; "svn"; "svn+ssh"; "sftp"; "nfs"; "git";
          "git+ssh"; "ws"; "wss"]%string.
Definition uses_params : list str :=
  py <$> [""; "ftp"; "hdl"; "prospero"; "http"; "imap"; "https"; "shttp";
          "rtsp"; "rtspu"; "sip"; "sips"; "mms"; "sftp"; "tel"]%string.

Definition str_in (s : str) (l : list str) : bool := bool_decide (s ∈ l).

Record SplitResult := mkSplit {
  s_scheme : str; s_netloc : str; s_path : str; s_query : str;
  s_fragment : str;
}.

(** [urlsplit(url, scheme)] *)
Definition urlsplit (url default_scheme : str) : SplitResult :=
  let url := lstrip_c0 url in
  let url := filter (λ c, c ≠ 9 ∧ c ≠ 13 ∧ c ≠ 10) url in
  let '(scheme, url) :=
    match partition 58 url with
    | (c :: head, Some rest) =>
        if is_alpha c && forallb is_scheme_char (c :: head)
        then (lower <$> (c :: head), rest)
        else (default_scheme, url)
    | _ => (default_scheme, url)
    end in
  let '(netloc, url) :=
    match url with
    | 47 :: 47 :: rest =>
        span_until (λ c, (c =? 47) || (c =? 63) || (c =? 35)) rest
    | _ => ([], url)
    end in
  let '(url, fragment) :=
    match partition 35 url with
    | (a, Some b) => (a, b)
    | (a, None) => (a, [])
    end in
  let '(url, query) :=
    match partition 63 url with
    | (a, Some b) => (a, b)
    | (a, None) => (a, [])
    end in
  {| s_scheme := scheme; s_netloc := netloc; s_path := url;
     s_query := query; s_fragment := fragment |}.

(** [str.rfind('/')] as the split of [s] around its last ['/']: the part
    up to and including it, and the last segment. *)
Definition rsplit_slash (s : str) : option (str * str) :=
  match partition 47 (reverse s) with
  | (last_rev, Some head_rev) => Some (reverse head_rev ++ [47], reverse last_rev)
  | (_, None) => None
  end.

(** [_splitparams(url)] *)
Definition splitparams (url : str) : str * str :=
  match rsplit_slash url with
  | Some (head, last) =>
      match partition 59 last with
      | (a, Some b) => (head ++ a, b)
      | (_, None) => (url, [])
      end
  | None =>
      match partition 59 url with
      | (a, Some b) => (a, b)
      | (_, None) => (removelast url, url)    (* [i = -1]; not reached *)
      end
  end.

(** [urlparse(url, scheme)] *)
Definition urlparse_with (url default_scheme : str) : ParseResult :=
  let r := urlsplit url default_scheme in
  let '(url, params) :=
    if str_in (s_scheme r) uses_params && bool_decide (59 ∈ s_path r)
    then splitparams (s_path r)
    else (s_path r, []) in
  {| scheme := s_scheme r; netloc := s_netloc r; path := url;
     params := params; query := s_query r; fragment := s_fragment r |}.

(** [urlunsplit] *)
Definition urlunsplit (r : SplitResult) : str :=
  let url := s_path r in
  let url :=
    if nonempty (s_netloc r)
       || (nonempty (s_scheme r) && str_in (s_scheme r) uses_netloc
           && negb (startswith (py "//") url))
    then
      let url := if nonempty url && negb (startswith (py "/") url)
                 then py "/" ++ url else url in
      py "//" ++ s_netloc r ++ url
    else url in
  let url := if nonempty (s_scheme r) then s_scheme r ++ py ":" ++ url else url in
  let url := if nonempty (s_query r) then url ++ py "?" ++ s_query r else url in
  if nonempty (s_fragment r) then url ++ py "#" ++ s_fragment r else url.

(** [urlunparse], which is also [ParseResult.geturl] *)
Definition urlunparse (p : ParseResult) : str :=
  let url := if nonempty (params p) then path p ++ py ";" ++ params p else path p in
  urlunsplit {| s_scheme := scheme p; s_netloc := netloc p; s_path := url;
                s_query := query p; s_fragment := fragment p |}.

(** The loop of [urljoin] over the path segments. *)
Definition resolve_segment (resolved_path : list str) (seg : str) : list str :=
  if bool_decide (seg = py "..") then removelast resolved_path
  else if bool_decide (seg = py ".") then resolved_path
  else resolved_path ++ [seg].

(** [segments[1:-1] = filter(None, segments[1:-1])] *)
Definition drop_empty_inner (segments : list str) : list str :=
  match segments with
  | first :: (_ :: _) as rest =>
      first :: filter (λ s, s ≠ []) (removelast rest) ++ [List.last rest []]
  | _ => segments
  end.

(** [urljoin(base, url)] *)
Definition urljoin_cpython (base url : str) : str :=
  if negb (nonempty base) then url
  else if negb (nonempty url) then base
  else
    let b := urlparse_with base [] in
    let u := urlparse_with url (scheme b) in
    if negb (bool_decide (scheme u = scheme b)) || negb (str_in (scheme u) uses_relative)
    then url
    else if str_in (scheme u) uses_netloc && nonempty (netloc u)
    then urlunparse u
    else
      let netloc' := if str_in (scheme u) uses_netloc then netloc b else netloc u in
      if negb (nonempty (path u)) && negb (nonempty (params u)) then
        urlunparse {| scheme := scheme u; netloc := netloc'; path := path b;
                      params := params b;
                      query := if nonempty (query u) then query u else query b;
                      fragment := fragment u |}
      else
        let base_parts := split (py "/") (path b) in
        let base_parts :=
          if nonempty (List.last base_parts []) then removelast base_parts
          else base_parts in
        let segments :=
          if startswith (py "/") (path u) then split (py "/") (path u)
          else drop_empty_inner (base_parts ++ split (py "/") (path u)) in
        let resolved_path := fold_left resolve_segment segments [] in
        let resolved_path :=
          if str_in (List.last segments []) [py "."; py ".."]
          then resolved_path ++ [[]] else resolved_path in
        let joined := join (py "/") resolved_path in
        urlunparse {| scheme := scheme u; netloc := netloc';
                      path := if nonempty joined then joined else py "/";
                      params := params u; query := query u;
                      fragment := fragment u |}.

(** *** The calls that raise *)

(** Two of the checks [urlsplit] makes on a netloc are taken from outside:
    whether [ipaddress.ip_address] reads a bracketed host as an IPv6 address,
    and whether the NFKC normal form of a netloc that is not ASCII contains
    one of the characters [/?#@:]. *)
Record NetlocChecks := mkChecks {
  ipv6_address : str → bool;
  nfkc_unsafe : str → bool;
}.

Definition is_hex (c : N) : bool :=
  ((48 <=? c) && (c <=? 57)) || ((65 <=? c) && (c <=? 70))
  || ((97 <=? c) && (c <=? 102)).

(** The pattern of [_check_bracketed_host] for a host that starts with [v]:
    [v], hexadecimal digits, a dot, and at least one more character. *)
Definition ipvfuture (hostname : str) : bool :=
  match hostname with
  | 118 :: rest =>
      let '(digits, tail) := span_until (λ c, negb (is_hex c)) rest in
      nonempty digits && match tail with 46 :: _ :: _ => true | _ => false end
  | _ => false
  end.

(** [_check_bracketed_netloc(netloc)] raises *)
Definition bracketed_netloc_raises (checks : NetlocChecks) (netloc : str) : bool :=
  let hostname_and_port :=
    match partition 64 (reverse netloc) with
    | (after_rev, _) => reverse after_rev
    end in
  let host_raises (hostname : str) :=
    if startswith (py "v") hostname then negb (ipvfuture hostname)
    else negb (ipv6_address checks hostname) in
  match partition 91 hostname_and_port with
  | (before_bracket, Some bracketed) =>
      if nonempty before_bracket then true
      else
        match partition 93 bracketed with
        | (hostname, Some port) =>
            if nonempty port && negb (startswith (py ":") port) then true
            else host_raises hostname
        | (hostname, None) => host_raises hostname
        end
  | (_, None) => host_raises (partition 58 hostname_and_port).1
  end.

(** The netloc makes [urlsplit] raise [ValueError]. *)
Definition netloc_raises (checks : NetlocChecks) (netloc : str) : bool :=
  let open := bool_decide (91 ∈ netloc) in
  let close := bool_decide (93 ∈ netloc) in
  xorb open close
  || (open && close && bracketed_netloc_raises checks netloc)
  || (nonempty netloc && negb (forallb (λ c, c <? 128) netloc)
      && nfkc_unsafe checks netloc).

Definition urlparse_raises_cpython (checks : NetlocChecks) (url : str) : bool :=
  netloc_raises checks (s_netloc (urlsplit url [])).

(** [urljoin] returns one of its arguments when the other is empty, and
    parses both otherwise. *)
Definition urljoin_raises_cpython (checks : NetlocChecks) (base url : str) : bool :=
  nonempty base && nonempty url
  && (urlparse_raises_cpython checks base || urlparse_raises_cpython checks url).

Definition cpython_with (checks : NetlocChecks) : UrlLib :=
  {| urlparse := λ url, urlparse_with url [];
     geturl := urlunparse;
     urljoin := urljoin_cpython;
     urlparse_raises := urlparse_raises_cpython checks;
     urljoin_raises := urljoin_raises_cpython checks |}.

(** The library with the two outside checks passing: exact on every URL
    whose netloc is ASCII and has no bracket or only one, or brackets in
    the wrong place; a bracketed host is taken to be a valid address, and a
    netloc that is not ASCII to be safe under NFKC. *)
Definition cpython : UrlLib :=
  cpython_with {| ipv6_address := λ _, true; nfkc_unsafe := λ _, false |}.

(** [parsed.hostname]: the host of [netloc] without user information
    and port, in lower case ([None] when empty). *)
Definition hostinfo_host (netloc : str) : str :=
  let hostinfo :=
    match partition 64 (reverse netloc) with
    | (after_rev, _) => reverse after_rev
    end in
  match partition 91 hostinfo with
  | (_, Some bracketed) => (partition 93 bracketed).1
  | (_, None) => (partition 58 hostinfo).1
  end.

Definition hostname (p : ParseResult) : option str :=
  match hostinfo_host (netloc p) with
  | [] => None
  | h =>
      match partition 37 h with
      | (name, Some zone) => Some ((lower <$> name) ++ py "%" ++ zone)
      | (name, None) => Some (lower <$> name)
      end
  end.

End Url.


(** ** Parsed pages: the [bs4] tree *)

Module Soup.

(** What [BeautifulSoup(html, 'html.parser')] builds: tags with their
    attribute dictionary and children, text ([NavigableString]), and the
    string kinds that [get_text] leaves out ([Comment], [Doctype], the
    contents of [script] and [style], ...). *)
#[warnings="-register-all"]
Inductive node :=
| Tag (name : str) (attrs : list (str * str)) (contents : list node)
| NavigableString (s : str)
| Comment (s : str).

(** [tag.descendants]: all nodes below [n], in document order. *)
Fixpoint descendants (n : node) : list node :=
  match n with
  | Tag _ _ contents => flat_map (λ c, c :: descendants c) contents
  | _ => []
  end.

(** [tag.get(key)]; the dictionary holds one value for a name. *)
Fixpoint get (key : str) (attrs : list (str * str)) : option str :=
  match attrs with
  | [] => None
  | (k, v) :: rest => if bool_decide (k = key) then Some v else get key rest
  end.

Definition has_name (names : list str) (n : node) : bool :=
  match n with
  | Tag name _ _ => bool_decide (name ∈ names)
  | _ => false
  end.

(** The tokens of a [class] value: [bs4] keeps it as the list of its
    whitespace-separated words. *)
Fixpoint words_from (cur s : str) : list str :=
  match s with
  | [] => match cur with [] => [] | _ => [reverse cur] end
  | c :: s' =>
      if isspace c then
        match cur with
        | [] => words_from [] s'
        | _ => reverse cur :: words_from [] s'
        end
      else words_from (c :: cur) s'
  end.
Definition words (s : str) : list str := words_from [] s.

(** [class_=value] for a [value] without white space *)
Definition has_class (value : str) (n : node) : bool :=
  match n with
  | Tag _ attrs _ =>
      match get (py "class") attrs with
      | Some v => bool_decide (value ∈ words v)
      | None => false
      end
  | _ => false
  end.

(** [id=value], and [href=True] as [has_attr] *)
Definition has_attr_value (key value : str) (n : node) : bool :=
  match n with
  | Tag _ attrs _ => bool_decide (get key attrs = Some value)
  | _ => false
  end.
Definition has_attr (key : str) (n : node) : bool :=
  match n with
  | Tag _ attrs _ => bool_decide (is_Some (get key attrs))
  | _ => false
  end.

(** [tag.find_all(...)] and [tag.find(...)] for a test on nodes *)
Definition find_all (test : node → bool) (n : node) : list node :=
  List.filter test (descendants n).
Definition find (test : node → bool) (n : node) : option node :=
  List.find test (descendants n).

(** The tree after [for tag in n.find_all(names): tag.decompose()]:
    every tag below [n] whose name is in [names] is cut out of its parent
    with all it contains (a match inside another match goes with it).
    [decompose] changes the tree in place, so this is the tree every later
    use of [n] sees. *)
Fixpoint decompose_all (names : list str) (n : node) : node :=
  match n with
  | Tag name attrs contents =>
      Tag name attrs
        ((fix keep (cs : list node) : list node :=
            match cs with
            | [] => []
            | c :: cs' =>
                if has_name names c then keep cs'
                else decompose_all names c :: keep cs'
            end) contents)
  | _ => n
  end.

(** [tag.get_text(separator, strip=True)]: the text strings below the
    tag, each stripped, the empty ones left out. *)
Definition stripped_strings (n : node) : list str :=
  List.filter nonempty
    ((λ d, match d with NavigableString s => strip s | _ => [] end)
       <$> descendants n).

Definition get_text (separator : str) (n : node) : str :=
  join separator (stripped_strings n).

End Soup.

(** ** [class WikiScraper]: scope filter and file names *)

Module Scraper.
Import Url.

(** The namespace prefixes listed in [is_valid_url]. *)
Definition NON_ARTICLE_PREFIXES : list str :=
  py <$> ["/wiki/Special:"; "/wiki/File:"; "/wiki/Category:"; "/wiki/User:";
          "/wiki/User_blog:"; "/wiki/Template:"; "/wiki/Help:";
          "/wiki/MediaWiki:"; "/wiki/Talk:"; "/wiki/Forum:";
          "/wiki/Board:"]%string.

Section WithUrlLib.
Context {urllib : UrlLib}.

(** [is_valid_url(url)] of a scraper whose [base_url] is [base_url] *)
Definition is_valid_url (base_url url : str) : bool :=
  let parsed := urlparse url in
  if negb (bool_decide (netloc parsed = netloc (urlparse base_url))) then false
  else if negb (startswith (py "/wiki/") (path parsed)) then false
  else if existsb (λ prefix, contains prefix (path parsed)) NON_ARTICLE_PREFIXES
  then false
  else if contains (py "action=edit") (query parsed)
          || contains (py "action=history") (query parsed)
  then false
  else true.

(** Whether [is_valid_url(url)] raises instead: one of its two [urlparse]
    calls does. *)
Definition is_valid_url_raises (base_url url : str) : bool :=
  urlparse_raises url || urlparse_raises base_url.
End WithUrlLib.

(** The character class of the pattern in [url_to_filename]: backslash,
    slash, star, question mark, colon, double quote, angle brackets, bar. *)
Definition illegal (c : N) : bool :=
  (c =? 92) || (c =? 47) || (c =? 42) || (c =? 63) || (c =? 58)
  || (c =? 34) || (c =? 60) || (c =? 62) || (c =? 124).

(** [re.sub(<that class>, '_', path)]: each match is one character. *)
Definition sub_illegal (s : str) : str :=
  (λ c, if illegal c then 95 else c) <$> s.

(** [os.path.join(a, b)] of [posixpath] *)
Definition os_path_join (a b : str) : str :=
  if startswith (py "/") b then b
  else if negb (nonempty a) || bool_decide (List.last a 0 = 47) then a ++ b
  else a ++ py "/" ++ b.

Section WithUrlLib.
Context {urllib : UrlLib}.

(** The value of [filename] in [url_to_filename], before truncation. *)
Definition derived_name (url : str) : str :=
  let parsed := urlparse url in
  let path := replace (py "/") (py "_") None
                (replace (py "/wiki/") [] (Some 1%nat) (path parsed)) in
  let filename := sub_illegal path in
  if nonempty filename then filename else py "index".

(** [url_to_filename(url)] of a scraper whose [dump_dir] is [dump_dir] *)
Definition url_to_filename (dump_dir url : str) : str :=
  os_path_join dump_dir (take 200 (derived_name url) ++ py ".txt").

(** Whether [url_to_filename(url)] raises instead: its [urlparse] does. *)
Definition url_to_filename_raises (url : str) : bool := urlparse_raises url.
End WithUrlLib.

(** *** Text normalisation (lines 126 and 127) *)

(** The pattern [\n\s*\n] tried just after a newline: [blank_run s] is
    the number of characters the greedy [\s*\n] consumes at the start of
    [s], that is, the length of the longest run of white space that ends
    in a newline; [None] when there is no match. *)
Fixpoint blank_run (s : str) : option nat :=
  match s with
  | [] => None
  | c :: s' =>
      if isspace c then
        match blank_run s' with
        | Some k => Some (S k)
        | None => if c =? 10 then Some 1%nat else None
        end
      else None
  end.

(** [re.sub(r'\n\s*\n', '\n', s)]: matches are taken from the left and do
    not overlap; [skip] counts the characters of the current match still
    to pass over. *)
Fixpoint sub_blank_from (skip : nat) (s : str) : str :=
  match s with
  | [] => []
  | c :: s' =>
      match skip with
      | S k => sub_blank_from k s'
      | O =>
          if c =? 10 then
            match blank_run s' with
            | Some k => 10 :: sub_blank_from k s'
            | None => c :: sub_blank_from 0 s'
            end
          else c :: sub_blank_from 0 s'
      end
  end.

Definition sub_blank_lines (s : str) : str := sub_blank_from 0 s.

(** [re.sub(r' +', ' ', s)]: of each run of spaces the last one stays. *)
Fixpoint sub_spaces (s : str) : str :=
  match s with
  | [] => []
  | c :: s' =>
      if c =? 32 then
        match s' with
        | d :: _ => if d =? 32 then sub_spaces s' else 32 :: sub_spaces s'
        | [] => [32]
        end
      else c :: sub_spaces s'
  end.

(** The two substitutions applied to the extracted text. *)
Definition normalize (text : str) : str :=
  sub_spaces (sub_blank_lines text).

(** *** Extraction and saving: [_parse_and_save] *)

(** The names given to [find_all] before text extraction. *)
Definition DECOMPOSED : list str :=
  py <$> ["script"; "style"; "nav"; "table.infobox"; "div.toc"; "figure";
          "aside"]%string.

Definition is_div (n : Soup.node) : bool := Soup.has_name [py "div"] n.
Definition is_link (n : Soup.node) : bool :=
  Soup.has_name [py "a"] n && Soup.has_attr (py "href") n.

(** [soup.find('div', class_='mw-parser-output') or
     soup.find('div', id='mw-content-text')]; a tag is always true. *)
Definition find_content_div (soup : Soup.node) : option Soup.node :=
  match Soup.find (λ n, is_div n && Soup.has_class (py "mw-parser-output") n) soup with
  | Some d => Some d
  | None =>
      Soup.find
        (λ n, is_div n && Soup.has_attr_value (py "id") (py "mw-content-text") n)
        soup
  end.

(** [link['href']] of a tag that has the attribute *)
Definition href (link : Soup.node) : str :=
  match link with
  | Soup.Tag _ attrs _ => default [] (Soup.get (py "href") attrs)
  | _ => []
  end.

(** What is outside the program: the HTML parser, the network, the file
    system and the standard output.  The other [print] calls stand outside
    the handlers embedded here and are taken to return. *)
Class Platform := {
  (** [BeautifulSoup(html, 'html.parser')] *)
  BeautifulSoup : str → Soup.node;
  (** [session.get] followed by [raise_for_status] and [text()]:
      the body, or [None] when one of them raised (every exception is
      caught in [fetch_page]) *)
  session_get : str → option str;
  (** what [open(filename, 'w')] raises, if anything; the file is then as
      it was *)
  open_raises : str → option exn;
  (** what [f.write(text)] or closing the file raises, if anything, and
      what the file, emptied by [open], then holds *)
  write_raises : str → str → option (exn * str);
  (** what the [print] of line 133 raises, if anything *)
  print_raises : str → option exn;
}.

Section WithLibraries.
Context {urllib : UrlLib} {platform : Platform} {engine : Robots.RuleEngine}.

(** The body of the [try] at line 130, lines 131 to 133: [open] empties
    the file before anything is written, and the file holds [text] once the
    [with] block is left without an exception. *)
Definition save_text (filename text : str) (files : gmap str str)
    : result unit * gmap str str :=
  match open_raises filename with
  | Some e => (Raise e, files)
  | None =>
      match write_raises filename text with
      | Some (e, kept) => (Raise e, <[filename := kept]> files)
      | None =>
          let files := <[filename := text]> files in
          match print_raises filename with
          | Some e => (Raise e, files)
          | None => (Ok (), files)
          end
      end
  end.

(** One round of the loop over the links (lines 138 to 142), from the
    list collected so far; [urljoin], [urlparse] and [is_valid_url] may
    raise. *)
Definition add_link (base_url current_url : str) (new_links : list str)
    (link : Soup.node) : result (list str) :=
  if urljoin_raises current_url (href link) then Raise ValueError
  else
    let absolute_url := urljoin current_url (href link) in
    if urlparse_raises absolute_url then Raise ValueError
    else
      let cleaned_url := geturl (replace_fragment [] (urlparse absolute_url)) in
      if is_valid_url_raises base_url cleaned_url then Raise ValueError
      else
        Ok (if is_valid_url base_url cleaned_url then new_links ++ [cleaned_url]
            else new_links).

(** The loop of lines 137 to 142: the first round that raises ends it. *)
Definition collect_links (base_url current_url : str) (content_div : Soup.node)
    : result (list str) :=
  fold_left
    (λ acc link, new_links ← acc; add_link base_url current_url new_links link)
    (Soup.find_all is_link content_div) (Ok []).

(** [_parse_and_save(html_content, current_url)].  The tree found at
    line 117 is changed in place by the loop of line 121; the text of
    line 125 and the links of line 138 are read from the changed tree.  An
    [IOError] of the [try] is handled at line 134; any other exception, and
    any exception of [url_to_filename] or of the link loop, leaves the
    function. *)
Definition _parse_and_save (base_url dump_dir html_content current_url : str)
    (files : gmap str str)
    : result (option str * list str) * gmap str str :=
  let soup := BeautifulSoup html_content in
  match find_content_div soup with
  | None => (Ok (None, []), files)
  | Some content_div =>
      let content_div := Soup.decompose_all DECOMPOSED content_div in
      let text := Soup.get_text (py (String (ascii_of_N 10) "")) content_div in
      let text := sub_blank_lines text in
      let text := sub_spaces text in
      if url_to_filename_raises current_url then (Raise ValueError, files)
      else
        let filename := url_to_filename dump_dir current_url in
        let '(saved, files) := save_text filename text files in
        match saved with
        | Raise OSError | Ok _ =>
            match collect_links base_url current_url content_div with
            | Ok new_links => (Ok (Some text, new_links), files)
            | Raise e => (Raise e, files)
            end
        | Raise e => (Raise e, files)
        end
  end.

Record WikiScraper := mkScraper {
  base_url : str;
  dump_dir : str;
  user_agent : str;
  robot_parser : Robots.RobotFileParser;
}.

(** [fetch_page(session, url)] *)
Definition fetch_page (self : WikiScraper) (url : str) : option str :=
  if negb (Robots.can_fetch (robot_parser self) (user_agent self) url)
  then None
  else session_get url.

(** What [process_page] returns: the integer [0] or a list. *)
Inductive page_result :=
| Zero
| Links (new_links : list str).

(** [process_page(session, url)] *)
Definition process_page (self : WikiScraper) (url : str)
    (files : gmap str str) : page_result * gmap str str :=
  match fetch_page self url with
  | None | Some [] => (Zero, files)
  | Some html =>
      match _parse_and_save (base_url self) (dump_dir self) html url files with
      | (Ok (_, new_links), files) => (Links new_links, files)
      | (Raise _, files) => (Links [], files)
      end
  end.

(** [if new_links:] *)
Definition truthy (r : page_result) : bool :=
  match r with
  | Zero | Links [] => false
  | Links (_ :: _) => true
  end.

End WithLibraries.

End Scraper.

(** ** The worker pool: [worker] and [main] *)

Module Crawl.
Import Url Scraper Frontier.

(** Where a worker task stands.  The frontier is shared and touched only
    by [get_next_url] and [add_new_urls]; between the two a worker waits
    for the semaphore and processes its page. *)
Inductive worker_state :=
| AtDequeue                          (* line 165 *)
| AtSemaphore (current_url : str)    (* line 170, not yet admitted *)
| AtEnqueue (new_links : page_result) (* line 172, inside the semaphore *)
| Finished.                          (* after [break] *)

Record crawl_state := mkCrawl {
  url_manager : URLManager;
  files : gmap str str;
  dequeued : list str;               (* URLs handed to workers, oldest first *)
  processed : list str;              (* URLs given to [process_page] *)
  tasks : list worker_state;
}.

Definition holds_semaphore (w : worker_state) : bool :=
  match w with AtEnqueue _ => true | _ => false end.

Definition is_finished (w : worker_state) : bool :=
  match w with Finished => true | _ => false end.

Section WithLibraries.
Context {urllib : UrlLib} {platform : Platform} {engine : Robots.RuleEngine}.

(** Task [i] runs up to its next suspension point.  An index without a
    task, a finished task and a task that finds the semaphore taken
    leave the state as it is. *)
Definition step (request_limit : nat) (scraper : WikiScraper)
    (st : crawl_state) (i : nat) : crawl_state :=
  let set w := <[i := w]> (tasks st) in
  match tasks st !! i with
  | Some AtDequeue =>
      match get_next_url (url_manager st) with
      | (None, m) =>
          {| url_manager := m; files := files st;
             dequeued := dequeued st; processed := processed st;
             tasks := set Finished |}
      | (Some current_url, m) =>
          {| url_manager := m; files := files st;
             dequeued := dequeued st ++ [current_url];
             processed := processed st;
             tasks := set (AtSemaphore current_url) |}
      end
  | Some (AtSemaphore current_url) =>
      if decide (length (List.filter holds_semaphore (tasks st)) < request_limit)%nat
      then
        let '(new_links, files') := process_page scraper current_url (files st) in
        {| url_manager := url_manager st; files := files';
           dequeued := dequeued st;
           processed := processed st ++ [current_url];
           tasks := set (AtEnqueue new_links) |}
      else st
  | Some (AtEnqueue new_links) =>
      let m :=
        match new_links with
        | Links ((_ :: _) as l) => (add_new_urls l (url_manager st)).2
        | _ => url_manager st
        end in
      {| url_manager := m; files := files st;
         dequeued := dequeued st; processed := processed st;
         tasks := set AtDequeue |}
  | Some Finished | None => st
  end.

(** [range(MAX_CONCURRENT_WORKERS)] tasks, all at the top of the loop. *)
Definition spawn (max_concurrent_workers : Z) : list worker_state :=
  replicate (Z.to_nat max_concurrent_workers) AtDequeue.

(** What [main] prints at the end, with what it leaves behind. *)
Record report := mkReport {
  visited_count : nat;
  final : crawl_state;
}.

(** [main()] for a loaded configuration, the reply to the request for
    [robots.txt], the clock at that moment, and the order [schedule] in
    which the event loop resumes the tasks.  The two calls of [urljoin], at
    line 179 and at line 62 (before the [try] of [setup_robots_parser]),
    may raise, which ends [main].  [asyncio.gather] returns once every task
    has finished; [Ok None] stands for a schedule that ends before that. *)
Definition main (cfg : Config.config) (reply : Robots.robots_reply)
    (now : Z) (schedule : list nat) : result (option report) :=
  if urljoin_raises (Config.BASE_URL cfg) (Config.START_PATH cfg)
  then Raise ValueError
  else
    let start_url := urljoin (Config.BASE_URL cfg) (Config.START_PATH cfg) in
    if urljoin_raises (Config.BASE_URL cfg) (py "/robots.txt")
    then Raise ValueError
    else
      let scraper :=
        {| base_url := Config.BASE_URL cfg;
           dump_dir := Config.DUMP_DIR cfg;
           user_agent := Config.USER_AGENT cfg;
           robot_parser :=
             Robots.setup_robots_parser now reply Robots.new_parser |} in
      let st0 :=
        {| url_manager := Frontier.init start_url; files := ∅; dequeued := [];
           processed := [];
           tasks := spawn (Config.MAX_CONCURRENT_WORKERS cfg) |} in
      let st :=
        fold_left (step (Z.to_nat (Config.REQUEST_LIMIT cfg)) scraper)
          schedule st0 in
      Ok (if forallb is_finished (tasks st)
          then Some {| visited_count := get_visited_count (url_manager st);
                       final := st |}
          else None).
End WithLibraries.

End Crawl.

(** * Properties *)

(** ** Text normalisation *)

Module NormalizeFacts.
Import Scraper.

(** No blank-line match starts anywhere in [s]. *)
Fixpoint blank_free (s : str) : Prop :=
  match s with
  | [] => True
  | c :: s' => (c = 10 → blank_run s' = None) ∧ blank_free s'
  end.

Lemma sub_blank_from_drop k s :
  sub_blank_from k s = sub_blank_lines (drop k s).
Proof.
    induction s as [|c s IH] in k |- *; destruct k as [|k]; try done.
    simpl. apply IH.
Qed.

Lemma blank_run_length s k : blank_run s = Some k → (k ≤ length s)%nat.
Proof.
    induction s as [|c s IH] in k |- *; simpl; [done|].
    destruct (isspace c); [|done].
    destruct (blank_run s) as [k'|].
    - intros [= <-]. specialize (IH k' eq_refl). lia.
    - destruct (c =? 10); [|done]. intros [= <-]. lia.
Qed.

(** After the longest match nothing is left that would extend it. *)
Lemma blank_run_rest s k : blank_run s = Some k → blank_run (drop k s) = None.
Proof.
    induction s as [|c s IH] in k |- *; simpl; [done|].
    destruct (isspace c); [|done].
    destruct (blank_run s) as [k'|] eqn:E.
    - intros [= <-]. simpl. by apply IH.
    - destruct (c =? 10); [|done]. by intros [= <-].
Qed.

Lemma sub_blank_lines_cons c s :
  sub_blank_lines (c :: s) =
    if c =? 10 then
      match blank_run s with
      | Some k => 10 :: sub_blank_lines (drop k s)
      | None => c :: sub_blank_lines s
      end
    else c :: sub_blank_lines s.
Proof.
    unfold sub_blank_lines at 1. simpl. destruct (c =? 10); [|done].
    destruct (blank_run s); [|done]. by rewrite sub_blank_from_drop.
Qed.

Lemma not_space_not_newline c : isspace c = false → (c =? 10) = false.
Proof. destruct (N.eqb_spec c 10) as [->|]; [done|done]. Qed.

Lemma blank_run_sub_blank s :
  blank_run s = None → blank_run (sub_blank_lines s) = None.
Proof.
    induction s as [|c s IH]; [done|]. simpl.
    destruct (isspace c) eqn:Hc.
    - destruct (blank_run s) eqn:E; [done|].
      destruct (c =? 10) eqn:Hn; [done|]. intros _.
      rewrite sub_blank_lines_cons, Hn. simpl. by rewrite Hc, IH, Hn.
    - intros _. rewrite sub_blank_lines_cons, (not_space_not_newline c Hc).
      simpl. by rewrite Hc.
Qed.

Lemma sub_blank_lines_free s : blank_free (sub_blank_lines s).
Proof.
    remember (length s) as n eqn:Hn.
    revert s Hn. induction n as [n IH] using lt_wf_ind. intros s ->.
    destruct s as [|c s]; [done|]. rewrite sub_blank_lines_cons.
    destruct (N.eqb_spec c 10) as [->|Hc].
    - destruct (blank_run s) as [k|] eqn:E.
      + split.
        * intros _. apply blank_run_sub_blank. by apply blank_run_rest.
        * apply (IH (length (drop k s))); [|done].
          rewrite length_drop. simpl. lia.
      + split.
        * intros _. by apply blank_run_sub_blank.
        * apply (IH (length s)); [simpl; lia|done].
    - split; [done|]. apply (IH (length s)); [simpl; lia|done].
Qed.

Lemma sub_blank_lines_fixed s : blank_free s → sub_blank_lines s = s.
Proof.
    induction s as [|c s IH]; [done|]. intros [Hc Hs].
    rewrite sub_blank_lines_cons.
    destruct (N.eqb_spec c 10) as [->|_].
    - by rewrite Hc, IH.
    - by rewrite IH.
Qed.

Lemma sub_spaces_cons c s :
  sub_spaces (c :: s) =
    if c =? 32 then
      match s with
      | d :: _ => if d =? 32 then sub_spaces s else 32 :: sub_spaces s
      | [] => [32]
      end
    else c :: sub_spaces s.
Proof. done. Qed.

Lemma blank_run_sub_spaces s :
  blank_run s = None → blank_run (sub_spaces s) = None.
Proof.
    induction s as [|c s IH]; [done|].
    rewrite sub_spaces_cons. cbn [blank_run].
    destruct (isspace c) eqn:Hc.
    - destruct (blank_run s) eqn:E; [done|].
      destruct (N.eqb_spec c 10) as [->|Hn]; [done|]. intros _.
      specialize (IH eq_refl).
      destruct (N.eqb_spec c 32) as [->|H32].
      + destruct s as [|d s]; [done|].
        destruct (d =? 32); [done|]. cbn [blank_run]. by rewrite IH.
      + cbn [blank_run]. rewrite Hc, IH. by apply N.eqb_neq in Hn as ->.
    - intros _. destruct (N.eqb_spec c 32) as [->|H32]; [done|].
      cbn [blank_run]. by rewrite Hc.
Qed.

Lemma sub_spaces_free s : blank_free s → blank_free (sub_spaces s).
Proof.
    induction s as [|c s IH]; [done|]. intros [Hc Hs].
    rewrite sub_spaces_cons. specialize (IH Hs).
    destruct (N.eqb_spec c 32) as [->|H32].
    - destruct s as [|d s]; [done|]. destruct (d =? 32); [done|].
      by split.
    - split; [|done]. intros ->. by apply blank_run_sub_spaces, Hc.
Qed.

Lemma sub_spaces_idem s : sub_spaces (sub_spaces s) = sub_spaces s.
Proof.
    induction s as [|c s IH]; [done|].
    rewrite (sub_spaces_cons c s).
    destruct (N.eqb_spec c 32) as [->|H32].
    - destruct s as [|d s]; [done|].
      destruct (N.eqb_spec d 32) as [->|Hd]; [done|].
      apply N.eqb_neq in Hd.
      assert (sub_spaces (d :: s) = d :: sub_spaces s) as E
        by by rewrite sub_spaces_cons, Hd.
      rewrite E in *. rewrite sub_spaces_cons. cbn [N.eqb Pos.eqb].
      by rewrite Hd, IH.
    - rewrite sub_spaces_cons. apply N.eqb_neq in H32. by rewrite H32, IH.
Qed.

Lemma normalize_free s : blank_free (normalize s).
Proof. apply sub_spaces_free, sub_blank_lines_free. Qed.

End NormalizeFacts.

(** ** Strings *)

Module StrFacts.

Lemma startswith_app p s : startswith p s = true ↔ ∃ r, s = p ++ r.
Proof.
    induction p as [|a p IH] in s |- *; simpl.
    - split; [eauto|done].
    - destruct s as [|b s].
      + split; [done|]. by intros [r ?].
      + rewrite andb_true_iff, N.eqb_eq, IH. split.
        * intros [-> [r ->]]. eauto.
        * intros [r [= -> ->]]. eauto.
Qed.




Lemma contains_nil_r needle : needle ≠ [] → contains needle [] = false.
Proof. by destruct needle. Qed.



End StrFacts.

(** ** The scope filter *)

Module ScopeFacts.
Import Url Scraper StrFacts.

Section WithUrlLib.
Context {urllib : UrlLib}.




End WithUrlLib.

End ScopeFacts.

(** ** File names *)

Module FilenameFacts.
Import Url Scraper StrFacts.

Lemma sub_illegal_no_slash s : 47 ∉ sub_illegal s.
Proof.
    unfold sub_illegal. intros (c & Hc & _)%list_elem_of_fmap.
    destruct (illegal c) eqn:E; [done|]. subst c. done.
Qed.

Lemma startswith_slash_cons c r : startswith (py "/") (c :: r) = (47 =? c).
Proof. change (py "/") with [47]. simpl. apply andb_true_r. Qed.

Lemma no_slash_not_absolute x :
  47 ∉ x → startswith (py "/") (x ++ py ".txt") = false.
Proof.
    destruct x as [|c x]; [done|]. intros Hx.
    change ((c :: x) ++ py ".txt") with (c :: (x ++ py ".txt")).
    rewrite startswith_slash_cons. apply N.eqb_neq. intros <-.
    apply Hx. by left.
Qed.

(** For relative second arguments [os.path.join] only puts its first
    argument in front. *)
Lemma os_path_join_relative a b :
  startswith (py "/") b = false →
  os_path_join a b =
    (if negb (nonempty a) || bool_decide (List.last a 0 = 47)
     then a else a ++ py "/") ++ b.
Proof.
    unfold os_path_join. intros ->.
    destruct (negb (nonempty a) || bool_decide (List.last a 0 = 47)); [done|].
    by rewrite <-app_assoc.
Qed.

Section WithUrlLib.
Context {urllib : UrlLib}.

Lemma derived_name_no_slash url : 47 ∉ derived_name url.
Proof.
    unfold derived_name. destruct (nonempty _).
    - apply sub_illegal_no_slash.
    - vm_compute. intros Hin.
      repeat (apply elem_of_cons in Hin as [[=]|Hin]).
      by apply elem_of_nil in Hin.
Qed.

Lemma truncated_name_no_slash url : 47 ∉ take 200 (derived_name url).
Proof.
    intros Hin. apply (derived_name_no_slash url).
    by apply (subseteq_take 200).
Qed.

(** The file name is a fixed frame around the truncated derived name. *)
Lemma url_to_filename_frame dump_dir url :
  url_to_filename dump_dir url =
    (if negb (nonempty dump_dir) || bool_decide (List.last dump_dir 0 = 47)
     then dump_dir else dump_dir ++ py "/")
    ++ take 200 (derived_name url) ++ py ".txt".
Proof.
    unfold url_to_filename. apply os_path_join_relative, no_slash_not_absolute.
    apply truncated_name_no_slash.
Qed.

Lemma url_to_filename_eq dump_dir url1 url2 :
  url_to_filename dump_dir url1 = url_to_filename dump_dir url2 ↔
    take 200 (derived_name url1) = take 200 (derived_name url2).
Proof.
    rewrite !url_to_filename_frame. split; [|by intros ->].
    intros E%app_inv_head. by apply app_inv_tail in E.
Qed.

End WithUrlLib.

End FilenameFacts.

(** ** Removal of tags by name *)

Module SoupFacts.
Import Soup.

Lemma node_forall_ind (P : node → Prop) :
  (∀ name attrs contents, Forall P contents → P (Tag name attrs contents)) →
  (∀ s, P (NavigableString s)) →
  (∀ s, P (Comment s)) →
  ∀ n, P n.
Proof.
    intros HTag HText HComment. fix IH 1.
    intros [name attrs contents|s|s]; [|apply HText|apply HComment].
    apply HTag. induction contents as [|c contents IHc]; constructor.
    - apply IH.
    - apply IHc.
Qed.

Lemma decompose_all_tag names name attrs contents :
  decompose_all names (Tag name attrs contents) =
    Tag name attrs
      (decompose_all names <$>
         List.filter (λ c, negb (has_name names c)) contents).
Proof.
    simpl. f_equal.
    induction contents as [|c contents IH]; [done|]. simpl.
    destruct (has_name names c); simpl; by rewrite IH.
Qed.

Lemma has_name_decompose_all names n :
  has_name names (decompose_all names n) = has_name names n.
Proof. by destruct n. Qed.

(** After the loop of line 121 no tag with one of the given names is
    left below the region. *)
Lemma decomposed_names_gone names n d :
  d ∈ descendants (decompose_all names n) → has_name names d = false.
Proof.
    revert d. induction n as [name attrs contents IH|s|s] using node_forall_ind;
      intros d; [|by intros ?%elem_of_nil..].
    rewrite decompose_all_tag. cbn [descendants].
    rewrite list_elem_of_In, in_flat_map.
    intros (c' & Hc'%list_elem_of_In & Hd%list_elem_of_In).
    apply list_elem_of_fmap in Hc' as (c & -> & Hc).
    apply list_elem_of_In, filter_In in Hc as [Hc%list_elem_of_In Hname].
    apply elem_of_cons in Hd as [->|Hd].
    - rewrite has_name_decompose_all. by apply negb_true_iff.
    - rewrite Forall_forall in IH. by apply (IH c Hc).
Qed.

End SoupFacts.

(** ** Extraction *)

Module ExtractFacts.
Import Url Scraper SoupFacts.

(** The target of a node that is a hyperlink: an [a] element with an
    [href] attribute. *)
Definition anchor_target (n : Soup.node) : list str :=
  match n with
  | Soup.Tag name attrs _ =>
      if bool_decide (name = py "a") then
        match Soup.get (py "href") attrs with
        | Some target => [target]
        | None => []
        end
      else []
  | _ => []
  end.

(** The hyperlink targets below a region, in document order. *)
Fixpoint hyperlink_targets (region : Soup.node) : list str :=
  match region with
  | Soup.Tag _ _ contents =>
      flat_map (λ c, anchor_target c ++ hyperlink_targets c) contents
  | _ => []
  end.

Section WithLibraries.
Context {urllib : UrlLib} {platform : Platform} {engine : Robots.RuleEngine}.

(** The link list in the words of the specification (section 4.4,
    step 4), for a content region [region]: its hyperlink targets,
    each resolved against the source URL and stripped of its fragment,
    those in scope kept, in document order. *)
Definition resolve (source_url target : str) : str :=
  urljoin source_url target.
Definition strip_fragment (url : str) : str :=
  geturl (replace_fragment [] (urlparse url)).
Definition link_list (site_root source_url : str) (region : Soup.node)
    : list str :=
  List.filter (is_valid_url site_root)
    ((λ target, strip_fragment (resolve source_url target))
       <$> hyperlink_targets region).

(** The library can resolve a target against the source URL, parse the
    result and let [is_valid_url] compare it with the site root: none of
    the calls of one round of the link loop raises. *)
Definition resolves (site_root source_url target : str) : Prop :=
  urljoin_raises source_url target = false
  ∧ urlparse_raises (urljoin source_url target) = false
  ∧ is_valid_url_raises site_root (strip_fragment (resolve source_url target))
    = false.

(** The text of a region as [_parse_and_save] computes it once the
    region is found. *)
Definition page_text (region : Soup.node) : str :=
  normalize
    (Soup.get_text (py (String (ascii_of_N 10) ""))
       (Soup.decompose_all DECOMPOSED region)).

Lemma anchor_target_link n :
  anchor_target n = if is_link n then [href n] else [].
Proof.
  destruct n as [name attrs contents|s|s]; [|done..].
  unfold is_link, anchor_target, href. cbn [Soup.has_name Soup.has_attr].
  destruct (decide (name = py "a")) as [->|Hne].
  - rewrite bool_decide_eq_true_2 by done.
    rewrite (bool_decide_eq_true_2 (py "a" ∈ [py "a"])) by by left.
    destruct (Soup.get (py "href") attrs) as [target|]; [|done].
    by rewrite bool_decide_eq_true_2 by by eexists.
  - rewrite bool_decide_eq_false_2 by done.
    rewrite (bool_decide_eq_false_2 (name ∈ [py "a"])); [done|].
    by intros ->%list_elem_of_singleton.
Qed.

(** The targets are the [href] values of what [find_all('a', href=True)]
    returns. *)
Lemma hyperlink_targets_find_all region :
  hyperlink_targets region = href <$> Soup.find_all is_link region.
Proof.
  unfold Soup.find_all.
  induction region as [name attrs contents IH|s|s] using node_forall_ind;
    [|done..].
  cbn [hyperlink_targets Soup.descendants].
  induction IH as [|c contents Hc _ IHcs]; [done|].
  cbn [flat_map]. rewrite !List.filter_app, !fmap_app. cbn [List.filter].
  rewrite IHcs, Hc, anchor_target_link.
  by destruct (is_link c).
Qed.

Lemma fold_add_link base_url current_url links acc :
  (∀ link, link ∈ links → resolves base_url current_url (href link)) →
  fold_left
    (λ acc link, new_links ← acc; add_link base_url current_url new_links link)
    links (Ok acc)
  = Ok (acc ++ List.filter (is_valid_url base_url)
                 ((λ link, strip_fragment (resolve current_url (href link)))
                    <$> links)).
Proof.
  induction links as [|link links IH] in acc |- *; intros Hres.
  - cbn. by rewrite app_nil_r.
  - destruct (Hres link ltac:(by left)) as (Hjoin & Hparse & Hscope).
    cbn [fold_left]. rewrite fmap_cons. cbn [List.filter mbind result_bind].
    unfold add_link at 2. unfold strip_fragment, resolve in Hscope |- *.
    rewrite Hjoin, Hparse, Hscope.
    rewrite IH by (intros l Hl; apply Hres; by right).
    destruct (is_valid_url base_url _); [|done].
    by rewrite <-app_assoc.
Qed.

Lemma fold_add_link_raised base_url current_url links e :
  fold_left
    (λ acc link, new_links ← acc; add_link base_url current_url new_links link)
    links (Raise e)
  = Raise e.
Proof. by induction links as [|link links IH]. Qed.

(** Whatever the loop returns passed [is_valid_url]. *)
Lemma fold_add_link_valid base_url current_url links acc l :
  (∀ u, u ∈ acc → is_valid_url base_url u = true) →
  fold_left
    (λ acc link, new_links ← acc; add_link base_url current_url new_links link)
    links (Ok acc) = Ok l →
  ∀ u, u ∈ l → is_valid_url base_url u = true.
Proof.
  induction links as [|link links IH] in acc |- *; intros Hacc.
  - by intros [= <-].
  - cbn [fold_left mbind result_bind]. unfold add_link at 2.
    destruct (urljoin_raises current_url (href link));
      [by rewrite fold_add_link_raised|].
    destruct (urlparse_raises _); [by rewrite fold_add_link_raised|].
    destruct (is_valid_url_raises _ _); [by rewrite fold_add_link_raised|].
    apply IH. destruct (is_valid_url base_url _) eqn:Hvalid; [|done].
    intros u [Hu| ->%list_elem_of_singleton]%elem_of_app; auto.
Qed.

Lemma collect_links_resolved base_url current_url content_div :
  (∀ target, target ∈ hyperlink_targets content_div →
             resolves base_url current_url target) →
  collect_links base_url current_url content_div
  = Ok (link_list base_url current_url content_div).
Proof.
  intros Hres. unfold collect_links, link_list.
  rewrite fold_add_link.
  - rewrite hyperlink_targets_find_all, <-list_fmap_compose. done.
  - intros link Hlink. apply Hres. rewrite hyperlink_targets_find_all.
    apply list_elem_of_fmap. eauto.
Qed.

Lemma collect_links_valid base_url current_url content_div l :
  collect_links base_url current_url content_div = Ok l →
  ∀ u, u ∈ l → is_valid_url base_url u = true.
Proof. apply fold_add_link_valid. by intros u ?%elem_of_nil. Qed.

(** [_parse_and_save] once the content region is found: the outcome of
    the save decides whether the link loop is reached, and the loop decides
    what is returned. *)
Lemma parse_and_save_region base_url dump_dir html current_url files region :
  find_content_div (BeautifulSoup html) = Some region →
  url_to_filename_raises current_url = false →
  let stripped := Soup.decompose_all DECOMPOSED region in
  let saved :=
    save_text (url_to_filename dump_dir current_url) (page_text region) files in
  _parse_and_save base_url dump_dir html current_url files =
    (match saved.1 with
     | Raise OSError | Ok _ =>
         match collect_links base_url current_url stripped with
         | Ok new_links => Ok (Some (page_text region), new_links)
         | Raise e => Raise e
         end
     | Raise e => Raise e
     end, saved.2).
Proof.
  intros Hfound Hname. cbv zeta. unfold _parse_and_save.
  rewrite Hfound, Hname.
  change (sub_spaces (sub_blank_lines ?t)) with (normalize t).
  fold (page_text region).
  destruct (save_text _ (page_text region) files) as [[[]|e] files'];
    cbn [fst snd].
  - by destruct (collect_links base_url current_url _).
  - destruct e; try done.
    by destruct (collect_links base_url current_url _).
Qed.

(** [_parse_and_save] when the content region is found, saving raises
    nothing but, possibly, an [OSError], and every target resolves. *)
Lemma parse_and_save_found base_url dump_dir html current_url files region :
  find_content_div (BeautifulSoup html) = Some region →
  url_to_filename_raises current_url = false →
  (∀ e, (save_text (url_to_filename dump_dir current_url) (page_text region)
           files).1 = Raise e → e = OSError) →
  (∀ target,
     target ∈ hyperlink_targets (Soup.decompose_all DECOMPOSED region) →
     resolves base_url current_url target) →
  _parse_and_save base_url dump_dir html current_url files =
    (Ok (Some (page_text region),
         link_list base_url current_url
           (Soup.decompose_all DECOMPOSED region)),
     (save_text (url_to_filename dump_dir current_url) (page_text region)
        files).2).
Proof.
  intros Hfound Hname Hio Hres.
  rewrite (parse_and_save_region _ _ _ _ _ region Hfound Hname). cbv zeta.
  rewrite (collect_links_resolved _ _ _ Hres).
  destruct (save_text _ _ _).1 as [[]|e] eqn:E; [done|].
  by rewrite (Hio e eq_refl).
Qed.

Lemma parse_and_save_no_region base_url dump_dir html current_url files :
  find_content_div (BeautifulSoup html) = None →
  _parse_and_save base_url dump_dir html current_url files
    = (Ok (None, []), files).
Proof. intros Hnone. unfold _parse_and_save. by rewrite Hnone. Qed.

(** [_parse_and_save] when the file name cannot be derived: nothing is
    opened. *)
Lemma parse_and_save_no_name base_url dump_dir html current_url files region :
  find_content_div (BeautifulSoup html) = Some region →
  url_to_filename_raises current_url = true →
  _parse_and_save base_url dump_dir html current_url files
    = (Raise ValueError, files).
Proof.
  intros Hfound Hname. unfold _parse_and_save. by rewrite Hfound, Hname.
Qed.

(** A save changes no file but the one it writes. *)
Lemma save_text_other filename text files name :
  name ≠ filename →
  (save_text filename text files).2 !! name = files !! name.
Proof.
  intros Hname. unfold save_text.
  destruct (open_raises filename); [done|].
  destruct (write_raises filename text) as [[e kept]|]; cbn [snd].
  - by rewrite lookup_insert_ne.
  - destruct (print_raises filename); cbn [snd]; by rewrite lookup_insert_ne.
Qed.

End WithLibraries.

End ExtractFacts.

(** ** The worker pool *)

Module CrawlFacts.
Import Url Scraper Frontier Crawl ExtractFacts.

(** The frontier of a crawl with the URLs it has handed out. *)
Definition trace_of (st : crawl_state) : trace_state :=
  {| manager := url_manager st; popped := dequeued st |}.

Section WithLibraries.
Context {urllib : UrlLib} {platform : Platform} {engine : Robots.RuleEngine}.

Lemma step_inv limit scraper st i :
  frontier_inv (trace_of st) → frontier_inv (trace_of (step limit scraper st i)).
Proof.
    intros Hinv. unfold step.
    destruct (tasks st !! i) as [[|current_url|new_links|]|]; try done.
    - pose proof (do_call_inv _ GetNextUrl Hinv) as Hpop.
      unfold trace_of in *. simpl in Hpop.
      by destruct (get_next_url (url_manager st)) as [[u|] m].
    - case_decide; [|done].
      by destruct (process_page scraper current_url (files st)).
    - destruct new_links as [|[|u l]]; try done.
      apply (add_new_urls_inv (dequeued st) (u :: l) (url_manager st) Hinv).
Qed.

Lemma schedule_inv limit scraper schedule st :
  frontier_inv (trace_of st) →
  frontier_inv (trace_of (fold_left (step limit scraper) schedule st)).
Proof.
    induction schedule as [|i schedule IH] in st |- *; [done|].
    intros Hinv. simpl. by apply IH, step_inv.
Qed.

(** Without tasks nothing ever runs. *)
Lemma step_no_tasks limit scraper st i :
  tasks st = [] → step limit scraper st i = st.
Proof. intros Hnone. unfold step. by rewrite Hnone. Qed.

Lemma run_no_tasks limit scraper schedule st :
  tasks st = [] → fold_left (step limit scraper) schedule st = st.
Proof.
    induction schedule as [|i schedule IH]; [done|].
    intros Hnone. simpl. rewrite step_no_tasks by done. by apply IH.
Qed.

Lemma add_new_urls_nil m : add_new_urls [] m = (0%nat, m).
Proof. done. Qed.



End WithLibraries.

End CrawlFacts.

(** ** Pages and platforms used in the examples *)

Module Examples.
Import Url Scraper Soup.

(** A rule engine that knows no rules: every search grants access. *)
Definition permissive : Robots.RuleEngine :=
  {| Robots.rules := unit;
     Robots.no_rules := ();
     Robots.parse_lines := λ _ _, ();
     Robots.search := λ _ _ _, true |}.

(** A platform on which every request is answered by a page that parses
    to [soup], and every [open] for writing raises [fault]. *)
Definition serving (soup : node) (fault : option exn) : Platform :=
  {| BeautifulSoup := λ _, soup;
     session_get := λ _, Some (py "<html>");
     open_raises := λ _, fault;
     write_raises := λ _ _, None;
     print_raises := λ _, None |}.

(** The same, but files open and every write raises [e] and leaves [kept]
    in the file. *)
Definition cutting (soup : node) (e : exn) (kept : str) : Platform :=
  {| BeautifulSoup := λ _, soup;
     session_get := λ _, Some (py "<html>");
     open_raises := λ _, None;
     write_raises := λ _ _, Some (e, kept);
     print_raises := λ _, None |}.

Definition content (children : list node) : node :=
  Tag (py "[document]") []
    [Tag (py "div") [(py "class", py "mw-parser-output")] children].

(** A page whose content region holds an info-box table and a paragraph. *)
Definition infobox_page : node :=
  content
    [Tag (py "table") [(py "class", py "infobox")]
       [Tag (py "tr") [] [Tag (py "td") [] [NavigableString (py "Infobox text")]]];
     Tag (py "p") [] [NavigableString (py "Article text")]].

(** A page with one link inside a [figure] and one in a paragraph. *)
Definition figure_page : node :=
  content
    [Tag (py "figure") []
       [Tag (py "a") [(py "href", py "/wiki/B")] [NavigableString (py "B")]];
     Tag (py "p") []
       [NavigableString (py "See ");
        Tag (py "a") [(py "href", py "/wiki/C")] [NavigableString (py "C")]]].

Definition site : str := py "https://x.fandom.com".
Definition home : str := py "https://x.fandom.com/wiki/Home".

End Examples.


(** * The claims *)

Module Claims.
Import Url Scraper Soup Frontier Crawl Examples.
Import StrFacts ScopeFacts FilenameFacts ExtractFacts CrawlFacts NormalizeFacts.

(** C1: whatever calls of [get_next_url] and [add_new_urls] the workers
  make and in whatever order the lock grants them, no URL is handed out
  twice; every pending URL is in [visited_urls]; the log of all URLs ever
  placed in [urls_to_visit] (handed out, then pending) has no duplicate and
  only grows at its end; [visited_urls] never loses a member.  The same
  holds for the URLs dequeued by the worker pool under every schedule. *)
Theorem frontier_no_duplicate_visits {urllib : UrlLib} {platform : Platform}
  {engine : Robots.RuleEngine}
  (start_url : str) (calls : list call)
  (limit : nat) (scraper : WikiScraper) (workers : Z) (schedule : list nat) :
  let t := run start_url calls in
  let st :=
  fold_left (step limit scraper) schedule
    {| url_manager := init start_url; files := ∅; dequeued := [];
       processed := []; tasks := spawn workers |} in
  NoDup (popped t)
  ∧ (∀ u, u ∈ urls_to_visit (manager t) → u ∈ visited_urls (manager t))
  ∧ NoDup (history t)
  ∧ (∀ more,
     history t `prefix_of` history (run start_url (calls ++ more))
     ∧ visited_urls (manager t)
         ⊆ visited_urls (manager (run start_url (calls ++ more))))
  ∧ NoDup (dequeued st)
  ∧ (∀ u, u ∈ dequeued st ++ urls_to_visit (url_manager st) →
        u ∈ visited_urls (url_manager st)).
Proof.
  intros t st. destruct (run_inv start_url calls) as [Hnd Hseen]. fold t in Hnd, Hseen.
  assert (frontier_inv (trace_of st)) as [Hnd' Hseen'].
  { apply schedule_inv. apply init_inv. }
  split_and!.
  - by apply NoDup_app in Hnd as (? & _ & _).
  - intros u Hu. apply Hseen. unfold history. apply elem_of_app. by right.
  - done.
  - intros more. unfold run. rewrite fold_left_app.
    destruct (fold_do_call_mono more (run start_url calls)) as [Hseen'' Hlog].
    by split.
  - by apply NoDup_app in Hnd' as (? & _ & _).
  - exact Hseen'.
Qed.

(** C2 (the code departs from the claim): when the request for robots.txt
  raises, is answered with a status other than 200, or its body cannot be
  read, [setup_robots_parser] leaves the parser as it was created, and
  [can_fetch] of such a parser is false for every agent and URL, so
  [fetch_page] returns [None] for every URL. *)
Theorem robots_failure_denies_everything {urllib : UrlLib} {platform : Platform}
  {engine : Robots.RuleEngine}
  (now : Z) (reply : Robots.robots_reply) (self : WikiScraper)
  (useragent url : str) :
  Robots.init_failed reply →
  robot_parser self = Robots.setup_robots_parser now reply Robots.new_parser →
  Robots.can_fetch (Robots.setup_robots_parser now reply Robots.new_parser)
  useragent url = false
  ∧ fetch_page self url = None.
Proof.
  intros Hfailed Hrp. rewrite Robots.setup_failed_unchanged in * by done.
  split; [done|]. unfold fetch_page. by rewrite Hrp.
Qed.

Lemma robots_failure_denies_everything_witness :
  Robots.can_fetch (engine := permissive)
  (Robots.setup_robots_parser 1700000000 (Robots.Replied 404 (Ok [])) Robots.new_parser)
  (py "FandomWikiArchiver/1.0 (Purpose: personal offline use)") home = false
  ∧ fetch_page (platform := serving infobox_page None) (engine := permissive)
    {| base_url := site; dump_dir := py "./dump";
       user_agent := py "FandomWikiArchiver/1.0 (Purpose: personal offline use)";
       robot_parser :=
         Robots.setup_robots_parser 1700000000 (Robots.Replied 404 (Ok []))
           Robots.new_parser |} home = None.
Proof.
  apply (robots_failure_denies_everything (urllib := cpython)
           (platform := serving infobox_page None) (engine := permissive)
           1700000000 (Robots.Replied 404 (Ok []))).
  - left. lia.
  - reflexivity.
Defined.



(** C4: the two substitutions applied to the extracted text, one after the
  other, change nothing when applied again. *)
Theorem normalize_idempotent (x : str) :
  normalize (normalize x) = normalize x.
Proof.
  unfold normalize at 1.
  rewrite (sub_blank_lines_fixed (normalize x)) by apply normalize_free.
  apply sub_spaces_idem.
Qed.

(** C5 (the code departs from the claim): [find_all] is given
  [table.infobox] and [div.toc] as tag names, which no [table] or [div]
  element has, so an info-box table stays in the content region and its
  text is part of the extracted and saved text.  Here for a content region
  made of an info-box table and one paragraph. *)
Theorem infobox_text_extracted :
  _parse_and_save (urllib := cpython) (platform := serving infobox_page None)
  site (py "./dump") (py "<html>") home ∅
  = (Ok (Some (py "Infobox text" ++ [10] ++ py "Article text"), []),
   {[ py "./dump/Home.txt" := py "Infobox text" ++ [10] ++ py "Article text" ]})
  ∧ contains (py "Infobox text")
    (py "Infobox text" ++ [10] ++ py "Article text") = true.
Proof. split; vm_compute; reflexivity. Qed.

(** C6, as the claim states it, fails: a link inside a [figure] of the
  content region is a hyperlink target of the region as it was found, but
  the region is stripped before the links are read, so the link is not
  returned. *)
Lemma links_inside_figure_dropped :
  find_content_div figure_page
  = Some (Tag (py "div") [(py "class", py "mw-parser-output")]
            [Tag (py "figure") []
               [Tag (py "a") [(py "href", py "/wiki/B")] [NavigableString (py "B")]];
             Tag (py "p") []
               [NavigableString (py "See ");
                Tag (py "a") [(py "href", py "/wiki/C")] [NavigableString (py "C")]]])
  ∧ link_list (urllib := cpython) site home
    (default figure_page (find_content_div figure_page))
  = [py "https://x.fandom.com/wiki/B"; py "https://x.fandom.com/wiki/C"]
  ∧ (_parse_and_save (urllib := cpython) (platform := serving figure_page None)
     site (py "./dump") (py "<html>") home ∅).1
  = Ok (Some (py "See" ++ [10] ++ py "C"), [py "https://x.fandom.com/wiki/C"]).
Proof. split_and!; vm_compute; reflexivity. Qed.

(** C6, amended: when the content region is found, the library can parse
  the source URL, saving raises nothing but, possibly, an IO error, and the
  library can resolve every hyperlink target, parse the result and compare
  it with the site root, the links returned are the hyperlink targets of
  the region as it is after the removal of the [script], [style], [nav],
  [figure] and [aside] elements (and of elements whose tag name is
  [table.infobox] or [div.toc]), each resolved against the source URL and
  stripped of its fragment, those in scope kept, in document order,
  duplicates retained. *)
Theorem links_of_stripped_region {urllib : UrlLib} {platform : Platform}
  {engine : Robots.RuleEngine}
  (base_url dump_dir html current_url : str) (files : gmap str str)
  (region : node) :
  find_content_div (BeautifulSoup html) = Some region →
  url_to_filename_raises current_url = false →
  (∀ e, (save_text (url_to_filename dump_dir current_url) (page_text region)
           files).1 = Raise e → e = OSError) →
  (∀ target, target ∈ hyperlink_targets (decompose_all DECOMPOSED region) →
             resolves base_url current_url target) →
  (_parse_and_save base_url dump_dir html current_url files).1
  = Ok (Some (page_text region),
      link_list base_url current_url (decompose_all DECOMPOSED region)).
Proof.
  intros Hfound Hname Hio Hres.
  by rewrite (parse_and_save_found _ _ _ _ _ region).
Qed.

(** A page that links to the same article twice, once with a fragment. *)
Definition twice_page : node :=
  content
  [Tag (py "nav") [] [Tag (py "a") [(py "href", py "/wiki/Menu")] []];
   Tag (py "a") [(py "href", py "/wiki/C#History")] [NavigableString (py "C")];
   Tag (py "a") [(py "href", py "C")] [NavigableString (py "again")];
   Tag (py "a") [(py "href", py "/wiki/Special:Random")] []].

Lemma links_of_stripped_region_witness :
  (_parse_and_save (urllib := cpython) (platform := serving twice_page (Some OSError))
   site (py "./dump") (py "<html>") home ∅).1
  = Ok (Some (py "C" ++ [10] ++ py "again"),
      [py "https://x.fandom.com/wiki/C"; py "https://x.fandom.com/wiki/C"]).
Proof.
  refine (eq_trans
    (links_of_stripped_region (urllib := cpython)
       (platform := serving twice_page (Some OSError)) (engine := permissive)
       site (py "./dump") (py "<html>") home ∅
       (default twice_page (find_content_div twice_page)) _ _ _ _) _).
  - vm_compute. reflexivity.
  - vm_compute. reflexivity.
  - intros e. vm_compute. congruence.
  - intros target Htarget. vm_compute in Htarget.
    repeat (apply elem_of_cons in Htarget as [->|Htarget];
            [split_and!; vm_compute; reflexivity|]).
    by apply elem_of_nil in Htarget.
  - vm_compute. reflexivity.
Defined.

(** C7, as the claim states it, fails: two distinct URLs in scope, whose
  derived names are far shorter than 200 characters, get the same file
  name. *)
Lemma in_scope_urls_collide :
  py "https://x.fandom.com/wiki/A/B" ≠ py "https://x.fandom.com/wiki/A_B"
  ∧ is_valid_url (urllib := cpython) site (py "https://x.fandom.com/wiki/A/B") = true
  ∧ is_valid_url (urllib := cpython) site (py "https://x.fandom.com/wiki/A_B") = true
  ∧ derived_name (urllib := cpython) (py "https://x.fandom.com/wiki/A/B") = py "A_B"
  ∧ derived_name (urllib := cpython) (py "https://x.fandom.com/wiki/A_B") = py "A_B"
  ∧ url_to_filename (urllib := cpython) (py "./dump") (py "https://x.fandom.com/wiki/A/B")
  = py "./dump/A_B.txt"
  ∧ url_to_filename (urllib := cpython) (py "./dump") (py "https://x.fandom.com/wiki/A_B")
  = py "./dump/A_B.txt".
Proof. split_and!; try (vm_compute; reflexivity). vm_compute. congruence. Qed.

(** C7, amended: [url_to_filename] is a function of the URL, and two URLs
  get the same file name exactly when their derived names agree on the
  first 200 characters; so URLs whose derived names differ within the
  first 200 characters get distinct file names. *)
Theorem filename_determined_by_truncated_name {urllib : UrlLib}
  (dump_dir url1 url2 : str) :
  (url1 = url2 → url_to_filename dump_dir url1 = url_to_filename dump_dir url2)
  ∧ (take 200 (derived_name url1) ≠ take 200 (derived_name url2) →
     url_to_filename dump_dir url1 ≠ url_to_filename dump_dir url2)
  ∧ (url_to_filename dump_dir url1 = url_to_filename dump_dir url2 ↔
     take 200 (derived_name url1) = take 200 (derived_name url2)).
Proof.
  split_and!.
  - by intros ->.
  - intros Hne Heq. apply Hne.
    by apply (proj1 (url_to_filename_eq dump_dir url1 url2)).
  - apply url_to_filename_eq.
Qed.





(** C9: the import of [main.py] as written raises [IndexError], whatever
  the machine: [user_input] does not contain [fandom.com], [split] gives
  the one-element list of [user_input] itself, element 0 is read for
  [BASE_URL] and element 1, read for [START_PATH], does not exist. *)
Theorem import_raises_index_error (cpu_count : option Z) :
  contains (py "fandom.com") Config.user_input = false
  ∧ split (py "fandom.com") Config.user_input = [Config.user_input]
  ∧ getitem (split (py "fandom.com") Config.user_input) 0 = Ok Config.user_input
  ∧ getitem (split (py "fandom.com") Config.user_input) 1 = Raise IndexError
  ∧ Config.import_main cpu_count = Raise IndexError.
Proof. split_and!; reflexivity. Qed.

(** C10: for a configuration loaded on a machine that reports fewer than
  three CPUs (a count is not negative, and the thread pool of line 181
  takes none) the worker count is zero and no task is spawned.  When the
  library can join the start URL and the robots.txt URL, then for every
  reply to the robots.txt request and every schedule [main] completes and
  reports a visited count of 1, with no URL dequeued or processed, no file
  written and the seed still pending; when it cannot, [main] ends with
  [ValueError] before any task exists. *)
Theorem no_workers_below_three_cpus {urllib : UrlLib} {platform : Platform}
  {engine : Robots.RuleEngine}
  (user_input : str) (cpu_count : Z) (cfg : Config.config)
  (reply : Robots.robots_reply) (now : Z) (schedule : list nat) :
  Config.load user_input (Some cpu_count) = Ok cfg →
  (0 ≤ cpu_count < 3)%Z →
  spawn (Config.MAX_CONCURRENT_WORKERS cfg) = []
  ∧ (urljoin_raises (Config.BASE_URL cfg) (Config.START_PATH cfg) = true
     ∨ urljoin_raises (Config.BASE_URL cfg) (py "/robots.txt") = true →
     main cfg reply now schedule = Raise ValueError)
  ∧ (urljoin_raises (Config.BASE_URL cfg) (Config.START_PATH cfg) = false →
     urljoin_raises (Config.BASE_URL cfg) (py "/robots.txt") = false →
     ∃ r, main cfg reply now schedule = Ok (Some r)
       ∧ visited_count r = 1%nat
       ∧ dequeued (final r) = []
       ∧ processed (final r) = []
       ∧ files (final r) = ∅
       ∧ urls_to_visit (url_manager (final r))
         = [urljoin (Config.BASE_URL cfg) (Config.START_PATH cfg)]).
Proof.
  intros Hload Hcpu.
  assert (spawn (Config.MAX_CONCURRENT_WORKERS cfg) = []) as Hspawn.
  { unfold Config.load in Hload.
    destruct (getitem (split (py "fandom.com") user_input) 0); [|done].
    destruct (getitem (split (py "fandom.com") user_input) 1); [|done].
    injection Hload as <-. unfold spawn. cbn [Config.MAX_CONCURRENT_WORKERS].
    replace (Z.to_nat (cpu_count `div` 3)) with 0%nat; [done|].
    pose proof (Z.div_lt_upper_bound cpu_count 3 1). lia. }
  split_and!; [done| |].
  - unfold main. intros [-> | Hrobots]; [done|].
    rewrite Hrobots. by destruct (urljoin_raises _ (Config.START_PATH cfg)).
  - intros Hstart Hrobots. unfold main. rewrite Hstart, Hrobots, Hspawn.
    rewrite run_no_tasks by done. cbn [tasks forallb].
    eexists. split; [done|].
    cbn [visited_count final dequeued processed files url_manager].
    split_and!; try done.
    unfold get_visited_count, init. cbn [visited_urls]. apply size_singleton.
Qed.

Lemma no_workers_below_three_cpus_witness :
  ∃ r, main (urllib := cpython) (platform := serving infobox_page None)
       (engine := permissive)
       {| Config.BASE_URL := site; Config.START_PATH := py "/wiki/Home";
          Config.DUMP_DIR := py "./dump"; Config.MAX_CONCURRENT_WORKERS := 0;
          Config.REQUEST_LIMIT := 5; Config.REQUEST_TIMEOUT := 30;
          Config.USER_AGENT :=
            py "FandomWikiArchiver/1.0 (Purpose: personal offline use)" |}
       (Robots.Replied 200 (Ok [])) 1700000000 [0; 1; 0]%nat = Ok (Some r)
     ∧ visited_count r = 1%nat
     ∧ dequeued (final r) = []
     ∧ processed (final r) = []
     ∧ files (final r) = ∅
     ∧ urls_to_visit (url_manager (final r)) = [home].
Proof.
  refine (proj2 (proj2 (no_workers_below_three_cpus (urllib := cpython)
    (platform := serving infobox_page None) (engine := permissive)
    (py "https://x.fandom.com/wiki/Home") 2 _
    (Robots.Replied 200 (Ok [])) 1700000000 [0; 1; 0]%nat _ _)) _ _).
  - vm_compute. reflexivity.
  - lia.
  - vm_compute. reflexivity.
  - vm_compute. reflexivity.
Defined.

End Claims.

(** * Further properties of the code *)

Set Warnings "-clear-no-such-hyp".

(** ** The frontier *)

Module FrontierMore.
Import Frontier.

(** The frontier remembers exactly the URLs it ever accepted. *)
Definition seen_exact (t : trace_state) : Prop :=
  visited_urls (manager t) = list_to_set (history t).

(** What [add_new_urls] does, for any starting count: it appends the list
    [added] of the offered URLs that were not yet seen, each once. *)
Lemma fold_add_one_spec urls n m :
  ∃ added,
    fold_left add_one urls (n, m)
    = ((n + length added)%nat,
       {| urls_to_visit := urls_to_visit m ++ added;
          visited_urls := visited_urls m ∪ list_to_set added |})
    ∧ NoDup added
    ∧ added `sublist_of` urls
    ∧ ∀ u, u ∈ added ↔ u ∈ urls ∧ u ∉ visited_urls m.
Proof.
  induction urls as [|url urls IH] in n, m |- *.
  - exists []. split_and!.
    + destruct m as [q v]. simpl. rewrite app_nil_r, Nat.add_0_r.
      do 2 f_equal. set_solver.
    + constructor.
    + done.
    + set_solver.
  - cbn [fold_left]. unfold add_one at 2.
    destruct (decide (url ∈ visited_urls m)) as [Hin|Hnew].
    + destruct (IH n m) as (added & -> & Hnd & Hsub & Hmem).
      exists added. split_and!; [done|done|by apply sublist_cons|].
      intros u. rewrite Hmem, elem_of_cons. naive_solver.
    + destruct (IH (S n)
        {| urls_to_visit := urls_to_visit m ++ [url];
           visited_urls := {[ url ]} ∪ visited_urls m |})
        as (added & -> & Hnd & Hsub & Hmem).
      cbn [urls_to_visit visited_urls] in *.
      exists (url :: added). split_and!.
      * cbn [length]. rewrite <-app_assoc. f_equal; [lia|].
        f_equal. set_solver.
      * constructor; [|done]. rewrite Hmem. set_solver.
      * by apply sublist_skip.
      * intros u. rewrite !elem_of_cons, Hmem.
        destruct (decide (u = url)) as [->|Hne]; [naive_solver|].
        set_solver.
Qed.

(** Offering only URLs that were seen changes nothing. *)
Lemma add_new_urls_seen urls m :
  (∀ u, u ∈ urls → u ∈ visited_urls m) → add_new_urls urls m = (0%nat, m).
Proof.
  unfold add_new_urls. generalize 0%nat as n.
  induction urls as [|url urls IH]; intros n Hall; [done|].
  cbn [fold_left]. unfold add_one at 2.
  rewrite decide_True by (apply Hall; by left).
  apply IH. intros u Hu. apply Hall. by right.
Qed.

Lemma add_new_urls_covers urls m u :
  u ∈ urls → u ∈ visited_urls (add_new_urls urls m).2.
Proof.
  unfold add_new_urls.
  destruct (fold_add_one_spec urls 0 m) as (added & -> & _ & _ & Hmem).
  cbn [snd visited_urls]. intros Hu.
  destruct (decide (u ∈ visited_urls m)); [set_solver|].
  apply elem_of_union_r, elem_of_list_to_set, Hmem. done.
Qed.

Lemma do_call_seen_exact t c : seen_exact t → seen_exact (do_call t c).
Proof.
  unfold seen_exact, history. destruct t as [m ps], c as [|urls]; simpl.
  - unfold get_next_url. destruct (urls_to_visit m) as [|u rest] eqn:E; simpl.
    + by rewrite E.
    + intros ->. by rewrite <-app_assoc.
  - intros Hseen. unfold add_new_urls.
    destruct (fold_add_one_spec urls 0 m) as (added & -> & _).
    cbn [snd visited_urls urls_to_visit]. rewrite Hseen.
    rewrite !list_to_set_app_L. set_solver.
Qed.

Lemma run_seen_exact start_url calls : seen_exact (run start_url calls).
Proof.
  unfold run.
  assert (seen_exact {| manager := init start_url; popped := [] |}) as Hinit.
  { unfold seen_exact, history. simpl. set_solver. }
  revert Hinit. generalize {| manager := init start_url; popped := [] |}.
  induction calls as [|c calls IH]; intros t Ht; [done|].
  simpl. by apply IH, do_call_seen_exact.
Qed.

Lemma popped_prefix_history t : popped t `prefix_of` history t.
Proof. by apply prefix_app_r. Qed.

End FrontierMore.

(** ** File names and text *)

Module TextMore.
Import Url Scraper StrFacts FilenameFacts NormalizeFacts.

(** No two spaces side by side. *)
Fixpoint single_spaced (s : str) : Prop :=
  match s with
  | c :: (d :: _) as s' => ¬ (c = 32 ∧ d = 32) ∧ single_spaced s'
  | _ => True
  end.

(** The characters that are not white space, in order. *)
Definition ink (s : str) : str := List.filter (λ c, negb (isspace c)) s.

Lemma sub_illegal_legal s c : c ∈ sub_illegal s → illegal c = false.
Proof.
  unfold sub_illegal. intros (d & -> & _)%list_elem_of_fmap.
  by destruct (illegal d) eqn:E.
Qed.

Lemma sub_spaces_head c s :
  (c =? 32) = false → sub_spaces (c :: s) = c :: sub_spaces s.
Proof. intros E. by rewrite sub_spaces_cons, E. Qed.

Lemma sub_spaces_single_spaced s : single_spaced (sub_spaces s).
Proof.
  induction s as [|c s IH]; [done|]. rewrite sub_spaces_cons.
  destruct (N.eqb_spec c 32) as [->|Hc].
  - destruct s as [|d s]; [done|].
    destruct (N.eqb_spec d 32) as [->|Hd]; [done|].
    apply N.eqb_neq in Hd. rewrite (sub_spaces_head d s Hd) in *.
    split; [|done]. intros [_ ->]. done.
  - destruct (sub_spaces s) as [|d t] eqn:E; [done|].
    split; [|done]. by intros [? _].
Qed.

Lemma single_spaced_app a b :
  single_spaced (a ++ 32 :: 32 :: b) → False.
Proof.
  induction a as [|c a IH]; simpl.
  - by intros [[] _].
  - destruct (a ++ 32 :: 32 :: b) eqn:E; [by destruct a|]. intros [_ ?]. auto.
Qed.

Lemma blank_free_app a s : blank_free (a ++ s) → blank_free s.
Proof. induction a as [|c a IH]; [done|]. intros [_ ?]. auto. Qed.

Lemma blank_run_white w b :
  Forall (λ c, isspace c = true) w → is_Some (blank_run (w ++ 10 :: b)).
Proof.
  induction 1 as [|c w Hc _ IH]; simpl.
  - destruct (blank_run b); eauto.
  - rewrite Hc. destruct IH as [k ->]. eauto.
Qed.

Lemma ink_cons c s : ink (c :: s) = if isspace c then ink s else c :: ink s.
Proof. unfold ink. simpl. by destruct (isspace c). Qed.

Lemma blank_run_ink s k : blank_run s = Some k → ink (drop k s) = ink s.
Proof.
  induction s as [|c s IH] in k |- *; cbn [blank_run]; [done|].
  destruct (isspace c) eqn:Hc; [|done]. rewrite (ink_cons c s), Hc.
  destruct (blank_run s) as [k'|] eqn:E.
  - intros [= <-]. cbn [drop]. by apply IH.
  - destruct (c =? 10); [|done]. by intros [= <-].
Qed.

Lemma sub_blank_lines_ink s :
  ink (sub_blank_lines s) = ink s ∧ (length (sub_blank_lines s) ≤ length s)%nat.
Proof.
  remember (length s) as n eqn:Hn.
  revert s Hn. induction n as [n IH] using lt_wf_ind. intros s ->.
  destruct s as [|c s]; [done|]. rewrite sub_blank_lines_cons.
  destruct (IH (length s) ltac:(simpl; lia) s eq_refl) as [IHi IHl].
  destruct (N.eqb_spec c 10) as [->|Hc].
  - destruct (blank_run s) as [k|] eqn:E.
    + destruct (IH (length (drop k s))
        ltac:(rewrite length_drop; simpl; lia) (drop k s) eq_refl) as [Hi Hl].
      rewrite !ink_cons. change (isspace 10) with true. cbn iota.
      rewrite Hi, (blank_run_ink s k E). split; [done|].
      rewrite length_drop in Hl. simpl. lia.
    + rewrite !ink_cons, IHi. split; [done|simpl; lia].
  - rewrite !ink_cons, IHi. split; [done|simpl; lia].
Qed.

Lemma sub_spaces_ink s :
  ink (sub_spaces s) = ink s ∧ (length (sub_spaces s) ≤ length s)%nat.
Proof.
  induction s as [|c s [IHi IHl]]; [done|]. rewrite sub_spaces_cons.
  destruct (N.eqb_spec c 32) as [->|Hc].
  - rewrite (ink_cons 32 s). change (isspace 32) with true. cbn iota.
    destruct s as [|d s]; [done|].
    destruct (d =? 32).
    + split; [done|simpl in *; lia].
    + rewrite ink_cons. change (isspace 32) with true. cbn iota.
      split; [done|simpl in *; lia].
  - rewrite !ink_cons, IHi. split; [done|simpl; lia].
Qed.

Section WithUrlLib.
Context {urllib : UrlLib}.

Lemma derived_name_nonempty url : derived_name url ≠ [].
Proof.
  unfold derived_name. destruct (nonempty _) eqn:E; [|done].
  by destruct (sub_illegal _).
Qed.

Lemma derived_name_legal url c : c ∈ derived_name url → illegal c = false.
Proof.
  unfold derived_name. destruct (nonempty _).
  - apply sub_illegal_legal.
  - vm_compute. intros Hin.
    repeat (apply elem_of_cons in Hin as [->|Hin]; [done|]).
    by apply elem_of_nil in Hin.
Qed.

End WithUrlLib.

End TextMore.

(** ** Pages and the worker pool *)

Module PoolMore.
Import Url Scraper Soup Frontier Crawl ExtractFacts CrawlFacts FrontierMore.

(** The URL a task holds while it waits for the semaphore. *)
Definition waiting_url (w : worker_state) : option str :=
  match w with AtSemaphore u => Some u | _ => None end.

(** The URLs dequeued and not yet given to [process_page]. *)
Definition waiting (ts : list worker_state) : list str := omap waiting_url ts.

(** The links a task holds between [process_page] and [add_new_urls]. *)
Definition held_links (w : worker_state) : list str :=
  match w with AtEnqueue (Links l) => l | _ => [] end.

Section WithLibraries.
Context {urllib : UrlLib} {platform : Platform} {engine : Robots.RuleEngine}.

(** The state in which [main] starts its tasks. *)
Definition initial (start_url : str) (workers : Z) : crawl_state :=
  {| url_manager := init start_url; files := ∅; dequeued := [];
     processed := []; tasks := spawn workers |}.

(** The crawl after the event loop has resumed the tasks in the order
    [schedule]. *)
Definition crawl (limit : nat) (scraper : WikiScraper) (start_url : str)
    (workers : Z) (schedule : list nat) : crawl_state :=
  fold_left (step limit scraper) schedule (initial start_url workers).

(** Every link in the list is in scope. *)
Definition all_valid (base_url : str) (l : list str) : Prop :=
  ∀ u, u ∈ l → is_valid_url base_url u = true.

(** *** What [process_page] returns *)

Lemma link_list_valid base_url current_url region :
  all_valid base_url (link_list base_url current_url region).
Proof.
  intros u Hu. unfold link_list in Hu.
  by apply list_elem_of_In, filter_In in Hu as [_ ?].
Qed.

Lemma process_page_valid self url files :
  all_valid (base_url self)
    (held_links (AtEnqueue (process_page self url files).1)).
Proof.
  unfold process_page.
  destruct (fetch_page self url) as [[|c html]|]; try by intros u ?%elem_of_nil.
  destruct (find_content_div (BeautifulSoup (c :: html))) as [region|] eqn:Hfound.
  - destruct (url_to_filename_raises url) eqn:Hname.
    { rewrite (parse_and_save_no_name _ _ _ _ _ region Hfound Hname).
      by intros u ?%elem_of_nil. }
    rewrite (parse_and_save_region _ _ _ _ _ region Hfound Hname). cbv zeta.
    destruct (collect_links _ url _) as [l|e'] eqn:Hlinks.
    + destruct (save_text _ _ _).1 as [[]|[]]; cbn [held_links fst];
        first [exact (collect_links_valid _ _ _ _ Hlinks)
              | by intros u ?%elem_of_nil].
    + destruct (save_text _ _ _).1 as [[]|[]]; by intros u ?%elem_of_nil.
  - rewrite parse_and_save_no_region by done. by intros u ?%elem_of_nil.
Qed.

(** *** Replacing one task *)

Lemma tasks_split (ts : list worker_state) i w :
  ts !! i = Some w →
  ∃ before after,
    ts = before ++ w :: after ∧ ∀ w', <[i := w']> ts = before ++ w' :: after.
Proof.
  intros Hi. exists (take i ts), (drop (S i) ts). split.
  - by rewrite take_drop_middle.
  - intros w'. apply insert_take_drop. by eapply lookup_lt_Some.
Qed.

(** *** The frontier of the pool evolves by frontier calls *)

Lemma step_trace limit scraper st i :
  trace_of (step limit scraper st i) = trace_of st
  ∨ ∃ c, trace_of (step limit scraper st i) = do_call (trace_of st) c.
Proof.
  unfold step.
  destruct (tasks st !! i) as [[|current_url|new_links|]|]; try by left.
  - right. exists GetNextUrl. unfold trace_of. simpl.
    by destruct (get_next_url (url_manager st)) as [[u|] m].
  - left. case_decide; [|done].
    by destruct (process_page scraper current_url (files st)).
  - destruct new_links as [|[|u l]]; try by left.
    right. by exists (AddNewUrls (u :: l)).
Qed.

Lemma schedule_trace limit scraper schedule st :
  ∃ calls,
    trace_of (fold_left (step limit scraper) schedule st)
    = fold_left do_call calls (trace_of st).
Proof.
  induction schedule as [|i schedule IH] in st |- *; [by exists []|].
  cbn [fold_left]. destruct (IH (step limit scraper st i)) as [calls ->].
  destruct (step_trace limit scraper st i) as [->|[c ->]].
  - by exists calls.
  - by exists (c :: calls).
Qed.

Lemma crawl_trace limit scraper start_url workers schedule :
  ∃ calls,
    trace_of (crawl limit scraper start_url workers schedule)
    = run start_url calls.
Proof. apply schedule_trace. Qed.

End WithLibraries.

End PoolMore.

(** ** Invariants of the worker pool *)

Module PoolInvariants.
Import Url Scraper Soup Frontier Crawl ExtractFacts CrawlFacts FrontierMore PoolMore.

Section WithLibraries.
Context {urllib : UrlLib} {platform : Platform} {engine : Robots.RuleEngine}.

(** Every dequeued URL is either waiting for the semaphore or has been
    given to [process_page], once. *)
Definition accounted (st : crawl_state) : Prop :=
  processed st ++ waiting (tasks st) ≡ₚ dequeued st.

(** The semaphore admits at most [limit] tasks. *)
Definition bounded (limit : nat) (st : crawl_state) : Prop :=
  (length (List.filter holds_semaphore (tasks st)) ≤ limit)%nat.

(** When every task of a non-empty pool has finished, nothing is pending. *)
Definition drained (st : crawl_state) : Prop :=
  forallb is_finished (tasks st) = true → tasks st ≠ [] →
  urls_to_visit (url_manager st) = [].

(** Apart from the seed, only URLs in scope are accepted, and the links a
    task holds are in scope. *)
Definition scoped (base_url start_url : str) (st : crawl_state) : Prop :=
  (∀ u, u ∈ history (trace_of st) → u = start_url ∨ is_valid_url base_url u = true)
  ∧ ∀ w, w ∈ tasks st → all_valid base_url (held_links w).

Lemma waiting_app a b : waiting (a ++ b) = waiting a ++ waiting b.
Proof. apply omap_app. Qed.

Lemma perm_insert_end (p a b : list str) u :
  p ++ a ++ u :: b ≡ₚ (p ++ a ++ b) ++ [u].
Proof.
  rewrite <-(Permutation_middle a b u), <-(Permutation_middle p (a ++ b) u).
  apply Permutation_cons_append.
Qed.

Lemma perm_move_front (p a b : list str) u :
  (p ++ [u]) ++ a ++ b ≡ₚ p ++ a ++ u :: b.
Proof.
  rewrite <-(Permutation_middle a b u), <-(Permutation_middle p (a ++ b) u).
  rewrite <-app_assoc. symmetry. apply (Permutation_middle p (a ++ b) u).
Qed.

Lemma step_accounted limit scraper st i :
  accounted st → accounted (step limit scraper st i).
Proof.
  unfold accounted, step. intros Hacc.
  destruct (tasks st !! i) as [w|] eqn:Hi; [|exact Hacc].
  destruct (tasks_split _ _ _ Hi) as (before & after & Hts & Hins).
  rewrite Hts, waiting_app in Hacc.
  destruct w as [|current_url|new_links|]; [| | |by rewrite Hts, waiting_app].
  - destruct (get_next_url (url_manager st)) as [[u|] m];
      cbn [processed dequeued tasks]; rewrite Hins, waiting_app.
    + change (waiting (AtSemaphore u :: after)) with (u :: waiting after).
      change (waiting (AtDequeue :: after)) with (waiting after) in Hacc.
      rewrite <-Hacc. apply perm_insert_end.
    + exact Hacc.
  - case_decide; [|by rewrite Hts, waiting_app].
    destruct (process_page scraper current_url (files st)) as [r f].
    cbn [processed dequeued tasks]. rewrite Hins, waiting_app.
    change (waiting (AtEnqueue r :: after)) with (waiting after).
    change (waiting (AtSemaphore current_url :: after))
      with (current_url :: waiting after) in Hacc.
    rewrite <-Hacc. apply perm_move_front.
  - cbn [processed dequeued tasks]. rewrite Hins, waiting_app. exact Hacc.
Qed.

Lemma filter_holds_app a b :
  List.filter holds_semaphore (a ++ b)
  = List.filter holds_semaphore a ++ List.filter holds_semaphore b.
Proof. apply List.filter_app. Qed.

Lemma step_bounded limit scraper st i :
  bounded limit st → bounded limit (step limit scraper st i).
Proof.
  unfold bounded, step. intros Hb.
  destruct (tasks st !! i) as [w|] eqn:Hi; [|exact Hb].
  destruct (tasks_split _ _ _ Hi) as (before & after & Hts & Hins).
  destruct w as [|current_url|new_links|]; [| | |exact Hb].
  - destruct (get_next_url (url_manager st)) as [[u|] m];
      cbn [tasks]; rewrite Hins; rewrite Hts in Hb;
      rewrite filter_holds_app in *; cbn in *; done.
  - case_decide as Hfree; [|exact Hb].
    destruct (process_page scraper current_url (files st)) as [r f].
    cbn [tasks]. rewrite Hins. rewrite Hts in Hfree, Hb.
    rewrite filter_holds_app, length_app in *. cbn in *. lia.
  - cbn [tasks]. rewrite Hins. rewrite Hts in Hb.
    rewrite filter_holds_app, length_app in *. cbn in *. lia.
Qed.

Lemma forallb_finished_insert (ts : list worker_state) i w w' :
  ts !! i = Some w → is_finished w' = false →
  forallb is_finished (<[i := w']> ts) = false.
Proof.
  intros Hi Hw'. destruct (tasks_split _ _ _ Hi) as (before & after & _ & ->).
  rewrite forallb_app. cbn. rewrite Hw'. by rewrite andb_false_r.
Qed.

Lemma step_drained limit scraper st i :
  drained st → drained (step limit scraper st i).
Proof.
  unfold drained, step. intros Hd.
  destruct (tasks st !! i) as [w|] eqn:Hi; [|exact Hd].
  destruct w as [|current_url|new_links|]; [| | |exact Hd].
  - unfold get_next_url.
    destruct (urls_to_visit (url_manager st)) as [|u rest] eqn:E;
      cbn [tasks url_manager]; [done|].
    by rewrite (forallb_finished_insert _ _ _ _ Hi).
  - case_decide.
    + destruct (process_page scraper current_url (files st)) as [r f].
      cbn [tasks]. by rewrite (forallb_finished_insert _ _ _ _ Hi).
    + intros Hall. exfalso.
      destruct (tasks_split _ _ _ Hi) as (before & after & Hts & _).
      rewrite Hts, forallb_app in Hall. cbn in Hall.
      by rewrite andb_false_r in Hall.
  - cbn [tasks]. by rewrite (forallb_finished_insert _ _ _ _ Hi).
Qed.

Lemma elem_of_insert_task (ts : list worker_state) i w' x :
  x ∈ <[i := w']> ts → x = w' ∨ x ∈ ts.
Proof.
  destruct (ts !! i) as [w|] eqn:Hi.
  - destruct (tasks_split _ _ _ Hi) as (before & after & Hts & ->).
    rewrite Hts, !elem_of_app, !elem_of_cons. naive_solver.
  - rewrite list_insert_ge; [auto|]. by apply lookup_ge_None.
Qed.

Lemma step_scoped limit scraper start_url st i :
  scoped (base_url scraper) start_url st →
  scoped (base_url scraper) start_url (step limit scraper st i).
Proof.
  unfold scoped, step. intros [Hhist Hheld].
  destruct (tasks st !! i) as [w|] eqn:Hi; [|by split].
  assert (w ∈ tasks st) as Hw by by eapply list_elem_of_lookup_2.
  destruct w as [|current_url|new_links|]; [| | |by split].
  - unfold get_next_url, trace_of, history in *. cbn in *.
    destruct (urls_to_visit (url_manager st)) as [|u rest] eqn:E; cbn.
    + split; [by rewrite E|].
      intros x [->|Hx]%elem_of_insert_task; [by intros ? ?%elem_of_nil|auto].
    + split; [by rewrite <-app_assoc|].
      intros x [->|Hx]%elem_of_insert_task; [by intros ? ?%elem_of_nil|auto].
  - case_decide; [|done].
    pose proof (process_page_valid scraper current_url (files st)) as Hvalid.
    destruct (process_page scraper current_url (files st)) as [r f].
    split; [done|]. cbn [tasks].
    intros x [->|Hx]%elem_of_insert_task; auto.
  - split.
    + unfold trace_of, history in *. cbn in *.
      destruct new_links as [|[|u l]]; [done|done|].
      unfold add_new_urls.
      destruct (fold_add_one_spec (u :: l) 0 (url_manager st))
        as (added & -> & _ & _ & Hmem).
      cbn [snd urls_to_visit]. intros x. rewrite app_assoc, elem_of_app.
      intros [Hx|Hx]; [auto|]. right.
      apply (Hheld _ Hw). by apply Hmem.
    + cbn [tasks].
      intros x [->|Hx]%elem_of_insert_task; [by intros ? ?%elem_of_nil|auto].
Qed.

Lemma step_length limit scraper st i :
  length (tasks (step limit scraper st i)) = length (tasks st).
Proof.
  unfold step. destruct (tasks st !! i) as [[|current_url|new_links|]|]; try done.
  - destruct (get_next_url (url_manager st)) as [[u|] m];
      cbn [tasks]; apply length_insert.
  - case_decide; [|done].
    destruct (process_page scraper current_url (files st)) as [r f].
    cbn [tasks]. apply length_insert.
  - cbn [tasks]. apply length_insert.
Qed.

Lemma step_finished limit scraper st i j :
  tasks st !! j = Some Finished →
  tasks (step limit scraper st i) !! j = Some Finished.
Proof.
  intros Hj. destruct (decide (i = j)) as [->|Hne].
  - unfold step. by rewrite Hj.
  - unfold step. destruct (tasks st !! i) as [[|current_url|new_links|]|]; try done.
    + destruct (get_next_url (url_manager st)) as [[u|] m];
        cbn [tasks]; by rewrite list_lookup_insert_ne.
    + case_decide; [|done].
      destruct (process_page scraper current_url (files st)) as [r f].
      cbn [tasks]. by rewrite list_lookup_insert_ne.
    + cbn [tasks]. by rewrite list_lookup_insert_ne.
Qed.

(** Invariants carry over to every schedule. *)
Lemma schedule_preserves (P : crawl_state → Prop) limit scraper :
  (∀ st i, P st → P (step limit scraper st i)) →
  ∀ schedule st, P st → P (fold_left (step limit scraper) schedule st).
Proof.
  intros Hstep schedule. induction schedule as [|i schedule IH]; [done|].
  intros st Hst. cbn [fold_left]. by apply IH, Hstep.
Qed.

Lemma spawn_waiting workers : waiting (spawn workers) = [].
Proof.
  unfold spawn. induction (Z.to_nat workers) as [|n IH]; [done|]. by cbn.
Qed.

Lemma spawn_holds workers : List.filter holds_semaphore (spawn workers) = [].
Proof.
  unfold spawn. induction (Z.to_nat workers) as [|n IH]; [done|]. by cbn.
Qed.

Lemma spawn_unfinished workers :
  forallb is_finished (spawn workers) = true → spawn workers = [].
Proof. unfold spawn. by destruct (Z.to_nat workers). Qed.

Lemma spawn_held workers w : w ∈ spawn workers → held_links w = [].
Proof. unfold spawn. by intros [-> _]%elem_of_replicate. Qed.

Lemma crawl_accounted limit scraper start_url workers schedule :
  accounted (crawl limit scraper start_url workers schedule).
Proof.
  unfold crawl. apply (schedule_preserves accounted); [apply step_accounted|].
  unfold accounted, initial. cbn. by rewrite spawn_waiting.
Qed.

Lemma crawl_bounded limit scraper start_url workers schedule :
  bounded limit (crawl limit scraper start_url workers schedule).
Proof.
  unfold crawl. apply (schedule_preserves (bounded limit)); [apply step_bounded|].
  unfold bounded, initial. cbn. rewrite spawn_holds. simpl. lia.
Qed.

Lemma crawl_drained limit scraper start_url workers schedule :
  drained (crawl limit scraper start_url workers schedule).
Proof.
  unfold crawl. apply (schedule_preserves drained); [apply step_drained|].
  unfold drained, initial. cbn. by intros ?%spawn_unfinished.
Qed.

Lemma crawl_scoped limit scraper start_url workers schedule :
  scoped (base_url scraper) start_url
    (crawl limit scraper start_url workers schedule).
Proof.
  unfold crawl. apply (schedule_preserves (scoped (base_url scraper) start_url));
    [intros; by apply step_scoped|].
  split.
  - unfold trace_of, history, initial. cbn. intros u ->%list_elem_of_singleton. by left.
  - cbn. intros w ->%spawn_held. by intros ? ?%elem_of_nil.
Qed.

Lemma crawl_length limit scraper start_url workers schedule :
  length (tasks (crawl limit scraper start_url workers schedule))
  = Z.to_nat workers.
Proof.
  unfold crawl.
  apply (schedule_preserves (λ st, length (tasks st) = Z.to_nat workers)).
  - intros st i <-. apply step_length.
  - cbn. apply length_replicate.
Qed.

End WithLibraries.

End PoolInvariants.

(** ** [str.split] and the configuration *)

Module SplitFacts.
Import StrFacts.

Lemma split_from_skip sep k cur s :
  split_from sep k cur s = split_from sep 0 cur (drop k s).
Proof.
  induction s as [|c s IH] in k |- *; destruct k as [|k]; try done.
  cbn [split_from drop]. apply IH.
Qed.

Lemma split_from_cons sep cur c s :
  split_from sep 0 cur (c :: s) =
    if startswith sep (c :: s)
    then reverse cur :: split_from sep 0 [] (drop (length sep - 1) s)
    else split_from sep 0 (c :: cur) s.
Proof.
  cbn [split_from]. destruct (startswith sep (c :: s)); [|done].
  by rewrite split_from_skip.
Qed.

Lemma split_from_nonempty sep k cur s :
  ∃ piece pieces, split_from sep k cur s = piece :: pieces.
Proof.
  induction s as [|c s IH] in k, cur |- *; [by eexists _, _|].
  destruct k as [|k]; cbn [split_from]; [|apply IH].
  destruct (startswith sep (c :: s)); [by eexists _, _|apply IH].
Qed.

(** Without an occurrence of the separator the string comes back whole. *)
Lemma split_from_absent sep cur s :
  contains sep s = false → split_from sep 0 cur s = [reverse cur ++ s].
Proof.
  induction s as [|c s IH] in cur |- *.
  - intros _. cbn. by rewrite app_nil_r.
  - cbn [contains]. intros [Hstart Hrest]%orb_false_elim.
    rewrite split_from_cons, Hstart, (IH _ Hrest), reverse_cons.
    by rewrite <-app_assoc.
Qed.

(** With an occurrence there are at least two pieces. *)
Lemma split_from_present sep cur s :
  contains sep s = true →
  sep = [] ∨ ∃ p0 p1 rest, split_from sep 0 cur s = p0 :: p1 :: rest.
Proof.
  destruct sep as [|a sep]; [by left|]. intros Hc. right.
  induction s as [|c s IH] in cur, Hc |- *; [done|].
  rewrite split_from_cons. cbn [contains] in Hc.
  destruct (startswith (a :: sep) (c :: s)) eqn:Hstart.
  - destruct (split_from_nonempty (a :: sep) 0 [] (drop (length (a :: sep) - 1) s))
      as (p1 & rest & ->). by eexists _, _, _.
  - apply IH. by rewrite orb_false_l in Hc.
Qed.

Lemma join_cons sep x y l : join sep (x :: y :: l) = x ++ sep ++ join sep (y :: l).
Proof. done. Qed.

(** [sep.join(s.split(sep)) == s] *)
Lemma join_split_from sep cur s :
  sep ≠ [] → join sep (split_from sep 0 cur s) = reverse cur ++ s.
Proof.
  intros Hsep. remember (length s) as n eqn:Hn.
  revert cur s Hn. induction n as [n IH] using lt_wf_ind. intros cur s ->.
  destruct s as [|c s]; [by cbn; rewrite app_nil_r|].
  rewrite split_from_cons.
  destruct (startswith sep (c :: s)) eqn:Hstart.
  - apply startswith_app in Hstart as [r Hr].
    destruct sep as [|a sep]; [done|]. injection Hr as <- ->.
    replace (length (c :: sep) - 1)%nat with (length sep) by (simpl; lia).
    rewrite drop_app_length.
    destruct (split_from_nonempty (c :: sep) 0 [] r) as (y & l & E).
    rewrite E, join_cons, <-E.
    rewrite (IH (length r)); [done| |done].
    cbn [length]. rewrite length_app. lia.
  - rewrite (IH (length s)); [|simpl; lia|done].
    by rewrite reverse_cons, <-app_assoc.
Qed.

Lemma join_head_prefix sep x l : x `prefix_of` join sep (x :: l).
Proof.
  destruct l as [|y l]; [done|]. rewrite join_cons. by apply prefix_app_r.
Qed.

End SplitFacts.

(** ** Text pieces of a stripped region *)

Module SoupMore.
Import Soup SoupFacts.

(** What a node contributes to [get_text]. *)
Definition piece (d : node) : str :=
  match d with NavigableString s => strip s | _ => [] end.

Lemma stripped_strings_pieces n :
  stripped_strings n = List.filter nonempty (piece <$> descendants n).
Proof. done. Qed.

Lemma piece_decompose_all names n : piece (decompose_all names n) = piece n.
Proof. by destruct n. Qed.

Lemma pieces_sublist names n :
  piece <$> descendants (decompose_all names n)
  `sublist_of` piece <$> descendants n.
Proof.
  induction n as [name attrs contents IH|s|s] using node_forall_ind; [|done..].
  rewrite decompose_all_tag. cbn [descendants].
  induction IH as [|c contents Hc _ IHcs]; [done|].
  cbn [List.filter flat_map].
  destruct (has_name names c); cbn [negb].
  - rewrite (fmap_app _ (c :: descendants c)). by apply sublist_inserts_l.
  - rewrite fmap_cons. cbn [flat_map]. rewrite !fmap_app, !fmap_cons.
    rewrite piece_decompose_all. apply sublist_skip, sublist_app; done.
Qed.

Lemma filter_sublist {A} (f : A → bool) (l1 l2 : list A) :
  l1 `sublist_of` l2 → List.filter f l1 `sublist_of` List.filter f l2.
Proof.
  induction 1 as [|x l1 l2 _ IH|x l1 l2 _ IH]; cbn [List.filter]; [done| |].
  - destruct (f x); [by apply sublist_skip|done].
  - destruct (f x); [by apply sublist_cons|done].
Qed.

Lemma find_all_none test n :
  (∀ d, d ∈ descendants n → test d = false) → find_all test n = [].
Proof.
  unfold find_all. induction (descendants n) as [|d l IH]; [done|].
  intros Hall. cbn [List.filter]. rewrite (Hall d) by by left.
  apply IH. intros d' Hd'. apply Hall. by right.
Qed.

End SoupMore.

(** ** Properties beyond the claims *)

Module Extras.
Import Url Scraper Soup Frontier Crawl Examples.
Import StrFacts FilenameFacts ExtractFacts CrawlFacts NormalizeFacts SoupFacts.
Import FrontierMore TextMore PoolMore PoolInvariants SplitFacts SoupMore.

(** X1: the frontier is first in, first out.  The URLs handed out up to
    any later moment and the URLs accepted up to now (handed out or
    pending) are two beginnings of one list: what is pending now is handed
    out in its queue order before anything accepted later. *)
Theorem frontier_fifo (start_url : str) (calls more : list call) :
  popped (run start_url (calls ++ more)) `prefix_of` history (run start_url calls)
  ∨ history (run start_url calls) `prefix_of` popped (run start_url (calls ++ more)).
Proof.
  apply (prefix_weak_total _ _ (history (run start_url (calls ++ more)))).
  - apply popped_prefix_history.
  - unfold run. rewrite fold_left_app. apply fold_do_call_mono.
Qed.

(** X2: [add_new_urls] appends to the queue the offered URLs that were not
    seen before, each once and in the order offered, returns how many these
    are, and makes every offered URL seen. *)
Theorem add_new_urls_appends_new (urls : list str) (m : URLManager) :
  ∃ added,
    add_new_urls urls m
    = (length added,
       {| urls_to_visit := urls_to_visit m ++ added;
          visited_urls := visited_urls m ∪ list_to_set urls |})
    ∧ NoDup added
    ∧ added `sublist_of` urls
    ∧ ∀ u, u ∈ added ↔ u ∈ urls ∧ u ∉ visited_urls m.
Proof.
  unfold add_new_urls.
  destruct (fold_add_one_spec urls 0 m) as (added & -> & Hnd & Hsub & Hmem).
  exists added. split_and!; try done.
  do 2 f_equal. apply set_eq. intros u.
  rewrite !elem_of_union, !elem_of_list_to_set, Hmem.
  destruct (decide (u ∈ visited_urls m)); naive_solver.
Qed.

(** X3: offering the same batch a second time adds nothing ([0] is
    returned and the frontier is unchanged). *)
Theorem add_new_urls_idempotent (urls : list str) (m : URLManager) :
  add_new_urls urls (add_new_urls urls m).2 = (0%nat, (add_new_urls urls m).2).
Proof. apply add_new_urls_seen. intros u. apply add_new_urls_covers. Qed.

(** X4: [get_visited_count] counts the URLs accepted so far, whether
    handed out or still pending: it is the number handed out plus
    [get_queue_size], for every sequence of calls and, in the worker pool,
    under every schedule. *)
Theorem visited_count_counts_accepted {urllib : UrlLib} {platform : Platform}
    {engine : Robots.RuleEngine}
    (start_url : str) (calls : list call)
    (limit : nat) (scraper : WikiScraper) (workers : Z) (schedule : list nat) :
  let t := run start_url calls in
  let st := crawl limit scraper start_url workers schedule in
  get_visited_count (manager t)
  = (length (popped t) + get_queue_size (manager t))%nat
  ∧ get_visited_count (url_manager st)
    = (length (dequeued st) + get_queue_size (url_manager st))%nat.
Proof.
  assert (∀ calls', let t := run start_url calls' in
            get_visited_count (manager t)
            = (length (popped t) + get_queue_size (manager t))%nat) as Hrun.
  { intros calls' t. unfold get_visited_count, get_queue_size.
    pose proof (run_seen_exact start_url calls') as Hseen.
    unfold seen_exact in Hseen. fold t in Hseen. rewrite Hseen.
    rewrite size_list_to_set by apply (run_inv start_url calls').
    unfold history. by rewrite length_app. }
  intros t st. split; [apply Hrun|].
  destruct (crawl_trace limit scraper start_url workers schedule) as [calls' E].
  fold st in E. specialize (Hrun calls'). cbv zeta in Hrun.
  rewrite <-E in Hrun. exact Hrun.
Qed.

(** X5: the file name is the dump directory, a separator unless the
    directory is empty or ends in one, a name of 1 to 200 characters
    none of which is one of the characters the pattern replaces (so no
    path separator), and [.txt]. *)
Theorem filename_shape {urllib : UrlLib} (dump_dir url : str) :
  ∃ name,
    url_to_filename dump_dir url
    = (if negb (nonempty dump_dir) || bool_decide (List.last dump_dir 0 = 47)
       then dump_dir else dump_dir ++ py "/")
      ++ name ++ py ".txt"
    ∧ (1 ≤ length name ≤ 200)%nat
    ∧ ∀ c, c ∈ name → illegal c = false.
Proof.
  exists (take 200 (derived_name url)). split_and!.
  - apply url_to_filename_frame.
  - pose proof (derived_name_nonempty url) as Hne.
    destruct (derived_name url) as [|c name]; [done|]. simpl. lia.
  - rewrite length_take. lia.
  - intros c Hc. apply (derived_name_legal url). by apply (subseteq_take 200).
Qed.

(** X6: in normalised text no two newlines are separated by white space
    only (so there is no blank line), and no two spaces are adjacent. *)
Theorem normalize_no_blank_line_no_double_space (x : str) :
  (∀ a w b, normalize x = a ++ 10 :: w ++ 10 :: b →
            ∃ c, c ∈ w ∧ isspace c = false)
  ∧ (∀ a b, normalize x ≠ a ++ 32 :: 32 :: b).
Proof.
  split.
  - intros a w b E.
    destruct (decide (Forall (λ c, isspace c = true) w)) as [Hw|Hw].
    + exfalso. pose proof (normalize_free x) as Hfree. rewrite E in Hfree.
      apply blank_free_app in Hfree as [Hnone _].
      destruct (blank_run_white w b Hw) as [k Hk].
      rewrite (Hnone eq_refl) in Hk. done.
    + apply not_Forall_Exists in Hw; [|apply _].
      apply Exists_exists in Hw as (c & Hc & Hsp).
      exists c. split; [done|]. cbn in Hsp. by destruct (isspace c).
  - intros a b E. apply (single_spaced_app a b). rewrite <-E.
    apply sub_spaces_single_spaced.
Qed.

(** X7: normalisation removes white space and nothing else: the
    characters that are not white space are the same, in the same order,
    and the text never gets longer. *)
Theorem normalize_keeps_ink (x : str) :
  ink (normalize x) = ink x ∧ (length (normalize x) ≤ length x)%nat.
Proof.
  unfold normalize.
  destruct (sub_spaces_ink (sub_blank_lines x)) as [Hi Hl].
  destruct (sub_blank_lines_ink x) as [Hi' Hl'].
  split; [by rewrite Hi|lia].
Qed.

(** X8: after the removal loop the content region holds no element whose
    name is in the list given to [find_all]: no [script], [style], [nav],
    [figure] or [aside] element is left at any depth. *)
Theorem decomposed_tags_absent (region : node) :
  find_all (has_name DECOMPOSED) (decompose_all DECOMPOSED region) = []
  ∧ find_all (has_name (py <$> ["script"; "style"; "nav"; "figure"; "aside"]%string))
      (decompose_all DECOMPOSED region) = [].
Proof.
  split; apply find_all_none; intros d Hd;
    pose proof (decomposed_names_gone DECOMPOSED region d Hd) as Hgone;
    [done|].
  destruct d as [name attrs contents|s|s]; [|done..].
  cbn [has_name] in *. apply bool_decide_eq_false in Hgone.
  apply bool_decide_eq_false. intros Hin. apply Hgone.
  unfold DECOMPOSED. rewrite !fmap_cons in *.
  rewrite !elem_of_cons in *. naive_solver.
Qed.

(** X9: the removal loop only takes text away: the pieces of text
    extracted from the stripped region are, in order, among the pieces the
    region had when it was found. *)
Theorem stripping_only_removes_text (region : node) :
  stripped_strings (decompose_all DECOMPOSED region)
  `sublist_of` stripped_strings region.
Proof.
  rewrite !stripped_strings_pieces. apply filter_sublist, pieces_sublist.
Qed.

(** X10: every link [process_page] returns is in scope, whatever the page
    and whatever happens while it is saved. *)
Theorem returned_links_in_scope {urllib : UrlLib} {platform : Platform}
    {engine : Robots.RuleEngine}
    (self : WikiScraper) (url : str) (files : gmap str str) :
  match (process_page self url files).1 with
  | Links new_links => ∀ u, u ∈ new_links → is_valid_url (base_url self) u = true
  | Zero => True
  end.
Proof.
  pose proof (process_page_valid self url files) as Hvalid.
  by destruct (process_page self url files).1.
Qed.

(** X11: when the file is opened and writing the text raises an exception
    that is not an IO error, the exception leaves [_parse_and_save] before
    the links are read and [process_page] catches it: the empty list is
    returned, so the links of the page are lost, and the file of the page,
    emptied by [open], holds only what was written before the exception. *)
Theorem other_write_error_loses_links {urllib : UrlLib} {platform : Platform}
    {engine : Robots.RuleEngine}
    (self : WikiScraper) (url html : str) (region : node) (e : exn)
    (kept : str) (files : gmap str str) :
  fetch_page self url = Some html →
  html ≠ [] →
  find_content_div (BeautifulSoup html) = Some region →
  url_to_filename_raises url = false →
  open_raises (url_to_filename (dump_dir self) url) = None →
  write_raises (url_to_filename (dump_dir self) url) (page_text region)
  = Some (e, kept) →
  e ≠ OSError →
  process_page self url files
  = (Links [], <[url_to_filename (dump_dir self) url := kept]> files).
Proof.
  intros Hfetch Hhtml Hfound Hname Hopen Hw He. unfold process_page.
  rewrite Hfetch. destruct html as [|c html]; [done|].
  rewrite (parse_and_save_region _ _ _ _ _ region Hfound Hname). cbv zeta.
  unfold save_text. rewrite Hopen, Hw. cbn [fst snd].
  by destruct e.
Qed.

Lemma other_write_error_loses_links_witness :
  process_page (urllib := cpython)
    (platform := cutting figure_page ValueError []) (engine := permissive)
    {| base_url := site; dump_dir := py "./dump"; user_agent := py "agent";
       robot_parser :=
         Robots.parse (engine := permissive) 1700000000 [] Robots.new_parser |}
    home {[ py "./dump/Home.txt" := py "old" ]}
  = (Links [], {[ py "./dump/Home.txt" := [] ]}).
Proof.
  refine (eq_trans
    (other_write_error_loses_links (urllib := cpython)
       (platform := cutting figure_page ValueError [])
       (engine := permissive) _ home (py "<html>")
       (default figure_page (find_content_div figure_page)) ValueError []
       {[ py "./dump/Home.txt" := py "old" ]} _ _ _ _ _ _ _) _).
  - vm_compute. reflexivity.
  - vm_compute. congruence.
  - vm_compute. reflexivity.
  - vm_compute. reflexivity.
  - vm_compute. reflexivity.
  - vm_compute. reflexivity.
  - congruence.
  - vm_compute. reflexivity.
Defined.

(** X12: [process_page] changes no file other than the one whose name is
    derived from the URL of the page. *)
Theorem process_page_touches_one_file {urllib : UrlLib} {platform : Platform}
    {engine : Robots.RuleEngine}
    (self : WikiScraper) (url name : str) (files : gmap str str) :
  name ≠ url_to_filename (dump_dir self) url →
  (process_page self url files).2 !! name = files !! name.
Proof.
  intros Hother. unfold process_page.
  destruct (fetch_page self url) as [[|c html]|]; try done.
  destruct (find_content_div (BeautifulSoup (c :: html))) as [region|] eqn:Hfound;
    [|by rewrite parse_and_save_no_region].
  destruct (url_to_filename_raises url) eqn:Hname;
    [by rewrite (parse_and_save_no_name _ _ _ _ _ region)|].
  rewrite (parse_and_save_region _ _ _ _ _ region Hfound Hname). cbv zeta.
  pose proof (save_text_other (url_to_filename (dump_dir self) url)
                (page_text region) files name Hother) as Hsame.
  destruct (save_text _ _ _).1 as [[]|[]]; try exact Hsame;
    by destruct (collect_links (base_url self) url _).
Qed.

Lemma process_page_touches_one_file_witness :
  (process_page (urllib := cpython)
     (platform := serving infobox_page None) (engine := permissive)
     {| base_url := site; dump_dir := py "./dump"; user_agent := py "agent";
        robot_parser :=
          Robots.parse (engine := permissive) 1700000000 [] Robots.new_parser |}
     home {[ py "./dump/Other.txt" := py "kept" ]}).2 !! py "./dump/Other.txt"
  = ({[ py "./dump/Other.txt" := py "kept" ]} : gmap str str) !! py "./dump/Other.txt".
Proof.
  apply (process_page_touches_one_file (urllib := cpython)
           (platform := serving infobox_page None) (engine := permissive)).
  vm_compute. congruence.
Defined.

(** X13: under every schedule no URL is given to [process_page] twice,
    and the URLs dequeued are exactly those processed together with those
    whose task still waits for the semaphore. *)
Theorem no_page_processed_twice {urllib : UrlLib} {platform : Platform}
    {engine : Robots.RuleEngine}
    (limit : nat) (scraper : WikiScraper) (start_url : str) (workers : Z)
    (schedule : list nat) :
  let st := crawl limit scraper start_url workers schedule in
  NoDup (processed st)
  ∧ processed st ++ waiting (tasks st) ≡ₚ dequeued st.
Proof.
  intros st. pose proof (crawl_accounted limit scraper start_url workers schedule)
    as Hacc. fold st in Hacc. unfold accounted in Hacc. split; [|exact Hacc].
  assert (frontier_inv (trace_of st)) as [Hnd _].
  { apply schedule_inv, init_inv. }
  apply NoDup_app in Hnd as (Hnd & _ & _). cbn in Hnd.
  rewrite <-Hacc in Hnd. by apply NoDup_app in Hnd as (? & _ & _).
Qed.

(** X14: under every schedule at most [limit] tasks are inside the
    semaphore at any moment. *)
Theorem semaphore_bound {urllib : UrlLib} {platform : Platform}
    {engine : Robots.RuleEngine}
    (limit : nat) (scraper : WikiScraper) (start_url : str) (workers : Z)
    (schedule : list nat) :
  (length (List.filter holds_semaphore
             (tasks (crawl limit scraper start_url workers schedule)))
   ≤ limit)%nat.
Proof. apply crawl_bounded. Qed.

(** X15: a task that has left its loop never runs again, and the number
    of tasks never changes. *)
Theorem finished_task_stays_finished {urllib : UrlLib} {platform : Platform}
    {engine : Robots.RuleEngine}
    (limit : nat) (scraper : WikiScraper) (st : crawl_state) (j : nat)
    (schedule : list nat) :
  tasks st !! j = Some Finished →
  tasks (fold_left (step limit scraper) schedule st) !! j = Some Finished
  ∧ length (tasks (fold_left (step limit scraper) schedule st))
    = length (tasks st).
Proof.
  intros Hj. split.
  - apply (schedule_preserves (λ st, tasks st !! j = Some Finished)); [|done].
    intros st' i. apply step_finished.
  - apply (schedule_preserves (λ st', length (tasks st') = length (tasks st)));
      [|done].
    intros st' i <-. apply step_length.
Qed.

Lemma finished_task_stays_finished_witness :
  let st :=
    {| url_manager := {| urls_to_visit := [home]; visited_urls := {[ home ]} |};
       files := ∅; dequeued := []; processed := [];
       tasks := [AtDequeue; Finished] |} in
  let st' :=
    fold_left
      (step (urllib := cpython) (platform := serving infobox_page None)
         (engine := permissive) 5
         {| base_url := site; dump_dir := py "./dump"; user_agent := py "agent";
            robot_parser :=
              Robots.parse (engine := permissive) 1700000000 [] Robots.new_parser |})
      [1; 0; 1; 0]%nat st in
  tasks st' !! 1%nat = Some Finished ∧ length (tasks st') = 2%nat.
Proof.
  intros st st'.
  apply (finished_task_stays_finished (urllib := cpython)
           (platform := serving infobox_page None) (engine := permissive)).
  reflexivity.
Defined.

Lemma finished_no_waiting (ts : list worker_state) :
  forallb is_finished ts = true → waiting ts = [].
Proof.
  induction ts as [|w ts IH]; [done|]. cbn [forallb].
  intros [Hw Hts]%andb_true_iff. destruct w; try done. by apply IH.
Qed.

Lemma main_crawl {urllib : UrlLib} {platform : Platform}
    {engine : Robots.RuleEngine}
    (cfg : Config.config) (reply : Robots.robots_reply) (now : Z)
    (schedule : list nat) :
  main cfg reply now schedule =
    if urljoin_raises (Config.BASE_URL cfg) (Config.START_PATH cfg)
       || urljoin_raises (Config.BASE_URL cfg) (py "/robots.txt")
    then Raise ValueError
    else
      let st :=
        crawl (Z.to_nat (Config.REQUEST_LIMIT cfg))
          {| base_url := Config.BASE_URL cfg;
             dump_dir := Config.DUMP_DIR cfg;
             user_agent := Config.USER_AGENT cfg;
             robot_parser :=
               Robots.setup_robots_parser now reply Robots.new_parser |}
          (urljoin (Config.BASE_URL cfg) (Config.START_PATH cfg))
          (Config.MAX_CONCURRENT_WORKERS cfg) schedule in
      Ok (if forallb is_finished (tasks st)
          then Some {| visited_count := get_visited_count (url_manager st);
                       final := st |}
          else None).
Proof.
  unfold main. destruct (urljoin_raises _ (Config.START_PATH cfg)); [done|].
  by destruct (urljoin_raises _ (py "/robots.txt")).
Qed.

(** X16: when [main] completes with at least one worker, nothing is
    pending, every URL the frontier ever accepted has been given to
    [process_page] exactly once, and the count reported is the number of
    pages processed. *)
Theorem completed_crawl_processed_everything {urllib : UrlLib}
    {platform : Platform} {engine : Robots.RuleEngine}
    (cfg : Config.config) (reply : Robots.robots_reply) (now : Z)
    (schedule : list nat) (r : report) :
  (1 ≤ Config.MAX_CONCURRENT_WORKERS cfg)%Z →
  main cfg reply now schedule = Ok (Some r) →
  urls_to_visit (url_manager (final r)) = []
  ∧ NoDup (processed (final r))
  ∧ processed (final r) ≡ₚ dequeued (final r)
  ∧ (∀ u, u ∈ visited_urls (url_manager (final r)) ↔ u ∈ processed (final r))
  ∧ visited_count r = length (processed (final r)).
Proof.
  intros Hworkers. rewrite main_crawl.
  destruct (urljoin_raises _ _ || urljoin_raises _ _); [done|].
  set (limit := Z.to_nat (Config.REQUEST_LIMIT cfg)).
  set (scraper := {| base_url := Config.BASE_URL cfg |}).
  set (start_url := urljoin (Config.BASE_URL cfg) (Config.START_PATH cfg)).
  set (workers := Config.MAX_CONCURRENT_WORKERS cfg) in *.
  cbv zeta. set (st := crawl limit scraper start_url workers schedule).
  destruct (forallb is_finished (tasks st)) eqn:Hfin; [|done].
  intros [= <-]. cbn [final visited_count].
  pose proof (crawl_length limit scraper start_url workers schedule) as Hlen.
  pose proof (crawl_drained limit scraper start_url workers schedule) as Hdr.
  pose proof (crawl_accounted limit scraper start_url workers schedule) as Hacc.
  destruct (crawl_trace limit scraper start_url workers schedule) as [calls Htr].
  fold st in Hlen, Hdr, Hacc, Htr. unfold accounted in Hacc.
  rewrite (finished_no_waiting _ Hfin), app_nil_r in Hacc.
  assert (urls_to_visit (url_manager st) = []) as Hempty.
  { apply Hdr; [done|]. intros Hnil. rewrite Hnil in Hlen. simpl in Hlen. lia. }
  pose proof (run_inv start_url calls) as [Hnd _].
  pose proof (run_seen_exact start_url calls) as Hseen.
  rewrite <-Htr in Hnd, Hseen. unfold seen_exact, history in *. cbn in Hnd, Hseen.
  rewrite Hempty, app_nil_r in Hnd, Hseen.
  split_and!.
  - done.
  - by rewrite Hacc.
  - done.
  - intros u. by rewrite Hseen, elem_of_list_to_set, Hacc.
  - unfold get_visited_count. rewrite Hseen, size_list_to_set by done.
    by rewrite Hacc.
Qed.

Lemma completed_crawl_processed_everything_witness :
  match
    main (urllib := cpython) (platform := serving infobox_page None)
      (engine := permissive)
      {| Config.BASE_URL := site; Config.START_PATH := py "/wiki/Home";
         Config.DUMP_DIR := py "./dump"; Config.MAX_CONCURRENT_WORKERS := 1;
         Config.REQUEST_LIMIT := 5; Config.REQUEST_TIMEOUT := 30;
         Config.USER_AGENT := py "agent" |}
      (Robots.Replied 200 (Ok [])) 1700000000 [0; 0; 0; 0]%nat
  with
  | Ok (Some r) =>
      urls_to_visit (url_manager (final r)) = []
      ∧ NoDup (processed (final r))
      ∧ processed (final r) ≡ₚ dequeued (final r)
      ∧ (∀ u, u ∈ visited_urls (url_manager (final r)) ↔ u ∈ processed (final r))
      ∧ visited_count r = length (processed (final r))
  | _ => False
  end.
Proof.
  destruct (main _ _ _ _) as [[r|]|e] eqn:E.
  - refine (completed_crawl_processed_everything (urllib := cpython)
              (platform := serving infobox_page None) (engine := permissive)
              _ _ _ _ r _ E).
    cbn. lia.
  - vm_compute in E. discriminate E.
  - vm_compute in E. discriminate E.
Defined.

(** X17: under every schedule every URL a worker dequeues is the start URL
    or passes [is_valid_url]. *)
Theorem only_in_scope_urls_dequeued {urllib : UrlLib} {platform : Platform}
    {engine : Robots.RuleEngine}
    (limit : nat) (scraper : WikiScraper) (start_url : str) (workers : Z)
    (schedule : list nat) :
  Forall (λ u, u = start_url ∨ is_valid_url (base_url scraper) u = true)
    (dequeued (crawl limit scraper start_url workers schedule)).
Proof.
  destruct (crawl_scoped limit scraper start_url workers schedule) as [Hhist _].
  apply Forall_forall. intros u Hu. apply Hhist.
  unfold history, trace_of. cbn. apply elem_of_app. by left.
Qed.

(** X18: the import gets past the two [split] lines exactly when
    [user_input] contains [fandom.com]: without it [IndexError] is raised
    whatever the machine, with it (and a known CPU count) a configuration is
    loaded. *)
Theorem import_needs_fandom_com (user_input : str) :
  (contains (py "fandom.com") user_input = false →
     ∀ cpu_count, Config.load user_input cpu_count = Raise IndexError)
  ∧ (contains (py "fandom.com") user_input = true →
     ∀ n, ∃ cfg, Config.load user_input (Some n) = Ok cfg).
Proof.
  split.
  - intros Habsent cpu_count. unfold Config.load, split.
    by rewrite (split_from_absent _ [] _ Habsent).
  - intros Hpresent n. unfold Config.load, split.
    destruct (split_from_present _ [] _ Hpresent) as [Hnil|(p0 & p1 & rest & ->)];
      [done|].
    by eexists.
Qed.

(** X19: when the configuration loads, [BASE_URL] ends in [fandom.com],
    [BASE_URL] followed by [START_PATH] is a beginning of [user_input], the
    CPU count was known and the worker count is that count divided by
    three, rounded down. *)
Theorem config_splits_input (user_input : str) (cpu_count : option Z)
    (cfg : Config.config) :
  Config.load user_input cpu_count = Ok cfg →
  (∃ head, Config.BASE_URL cfg = head ++ py "fandom.com")
  ∧ (Config.BASE_URL cfg ++ Config.START_PATH cfg) `prefix_of` user_input
  ∧ ∃ n, cpu_count = Some n ∧ Config.MAX_CONCURRENT_WORKERS cfg = (n `div` 3)%Z.
Proof.
  unfold Config.load, split. intros Hload.
  assert (py "fandom.com" ≠ []) as Hsep by done.
  pose proof (join_split_from (py "fandom.com") [] user_input Hsep) as Hjoin.
  destruct (split_from (py "fandom.com") 0 [] user_input)
    as [|p0 [|p1 rest]]; [done|done|].
  destruct cpu_count as [n|]; [|done]. injection Hload as <-.
  cbn [Config.BASE_URL Config.START_PATH Config.MAX_CONCURRENT_WORKERS].
  split_and!; [by eexists| |by eexists].
  rewrite join_cons in Hjoin.
  change (reverse [] ++ user_input) with user_input in Hjoin. rewrite <-Hjoin.
  destruct (join_head_prefix (py "fandom.com") p1 rest) as [k ->].
  exists k. by rewrite <-!app_assoc.
Qed.

Lemma config_splits_input_witness :
  (∃ head, py "https://x.fandom.com" = head ++ py "fandom.com")
  ∧ (py "https://x.fandom.com" ++ py "/wiki/Home")
      `prefix_of` py "https://x.fandom.com/wiki/Home"
  ∧ ∃ n, Some 8%Z = Some n ∧ 2%Z = (n `div` 3)%Z.
Proof.
  apply (config_splits_input (py "https://x.fandom.com/wiki/Home") (Some 8%Z)
           {| Config.BASE_URL := py "https://x.fandom.com";
              Config.START_PATH := py "/wiki/Home";
              Config.DUMP_DIR := py "./dump";
              Config.MAX_CONCURRENT_WORKERS := 2;
              Config.REQUEST_LIMIT := 5; Config.REQUEST_TIMEOUT := 30;
              Config.USER_AGENT :=
                py "FandomWikiArchiver/1.0 (Purpose: personal offline use)" |}).
  vm_compute. reflexivity.
Defined.

(** X20: for a page that cannot be fetched (the policy forbids it, the
    request fails, or the body is empty) [process_page] returns [0] and
    writes no file; the worker holds that [0] after the call, which is not
    true, so nothing is added to the frontier; the page is counted as
    processed and its worker goes on with its loop. *)
Theorem failed_fetch_adds_nothing {urllib : UrlLib} {platform : Platform}
    {engine : Robots.RuleEngine}
    (self : WikiScraper) (url : str) (limit : nat) (st : crawl_state) (i : nat) :
  fetch_page self url = None ∨ fetch_page self url = Some [] →
  tasks st !! i = Some (AtSemaphore url) →
  (length (List.filter holds_semaphore (tasks st)) < limit)%nat →
  let st1 := step limit self st i in
  let st2 := step limit self st1 i in
  process_page self url (files st) = (Zero, files st)
  ∧ truthy Zero = false
  ∧ tasks st1 !! i = Some (AtEnqueue Zero)
  ∧ url_manager st2 = url_manager st
  ∧ files st2 = files st
  ∧ processed st2 = processed st ++ [url]
  ∧ tasks st2 !! i = Some AtDequeue.
Proof.
  intros Hfetch Hi Hfree.
  assert (process_page self url (files st) = (Zero, files st)) as Hpage.
  { unfold process_page. by destruct Hfetch as [-> | ->]. }
  split; [exact Hpage|]. split; [done|].
  assert (i < length (tasks st))%nat as Hlt by by eapply lookup_lt_Some.
  assert (step limit self st i
          = {| url_manager := url_manager st; files := files st;
               dequeued := dequeued st; processed := processed st ++ [url];
               tasks := <[i := AtEnqueue Zero]> (tasks st) |}) as ->.
  { unfold step. rewrite Hi, decide_True by done. by rewrite Hpage. }
  cbv zeta. cbn [tasks]. split; [by apply list_lookup_insert_eq|].
  unfold step. cbn [tasks].
  rewrite list_lookup_insert_eq by done.
  cbn [url_manager files processed tasks]. split_and!; try done.
  apply list_lookup_insert_eq. by rewrite length_insert.
Qed.

Lemma failed_fetch_adds_nothing_witness :
  let self :=
    {| base_url := site; dump_dir := py "./dump"; user_agent := py "agent";
       robot_parser := Robots.new_parser (engine := permissive) |} in
  let st :=
    {| url_manager := {| urls_to_visit := []; visited_urls := {[ home ]} |};
       files := ∅; dequeued := [home]; processed := [];
       tasks := [AtSemaphore home] |} in
  let st1 :=
    step (urllib := cpython) (platform := serving figure_page None) 5 self st 0 in
  let st2 :=
    step (urllib := cpython) (platform := serving figure_page None) 5 self st1 0 in
  process_page (urllib := cpython) (platform := serving figure_page None)
    self home (files st) = (Zero, files st)
  ∧ truthy Zero = false
  ∧ tasks st1 !! 0%nat = Some (AtEnqueue Zero)
  ∧ url_manager st2 = url_manager st
  ∧ files st2 = files st
  ∧ processed st2 = processed st ++ [home]
  ∧ tasks st2 !! 0%nat = Some AtDequeue.
Proof.
  intros self st.
  apply (failed_fetch_adds_nothing (urllib := cpython)
           (platform := serving figure_page None) (engine := permissive)
           self home 5 st 0).
  - left. reflexivity.
  - reflexivity.
  - vm_compute. lia.
Defined.

End Extras.
